(** * A console contact book: field validators, records, the address book
      and its upcoming-birthdays query (hw_module_1.py)

    The classes [Phone], [Birthday], [Record] and [AddressBook] are embedded
    as executable functions.  [Record] methods mutate the record and may
    raise, so they live in a state-and-exception monad; the address book is
    an insertion-ordered dictionary; [date.today()] is an explicit argument. *)

From Stdlib Require Import ZArith List Bool String Ascii DecimalString Lia.
Import ListNotations.
Local Open Scope Z_scope.

(** ** The Python values and built-ins the program relies on *)
Module Py.

(** A [str] is a sequence of Unicode code points. *)
Definition char := Z.
Definition pystr := list char.

(** Literals of the source, written as ASCII text. *)
Definition lit (s : string) : pystr :=
  map (fun a => Z.of_N (N_of_ascii a)) (list_ascii_of_string s).

Fixpoint str_eqb (a b : pystr) : bool :=
  match a, b with
  | [], [] => true
  | x :: a', y :: b' => (x =? y) && str_eqb a' b'
  | _, _ => false
  end.

Definition len {A} (l : list A) : Z := Z.of_nat (List.length l).

(** Exceptions.  [ValueError (Some m)] is raised by the program itself with
    message [m] (a bare [raise ValueError] has the empty message);
    [ValueError None] and [OverflowError] are raised inside the standard
    library, whose message texts are not modelled. *)
Inductive exn :=
| ValueError (msg : option string)
| OverflowError.

(** An exception that a [raise] statement of the program produced, not a
    call into the library. *)
Definition raised_by_program (e : exn) : Prop :=
  exists m, e = ValueError (Some m).

Inductive result (A : Type) :=
| Ok (a : A)
| Raise (e : exn).
Arguments Ok {A} a.
Arguments Raise {A} e.

(** *** Unicode properties (Unicode 14.0, the database of CPython 3.11) *)

Definition in_range (c : char) (r : Z * Z) : bool :=
  (fst r <=? c) && (c <=? snd r).

Definition in_ranges (tbl : list (Z * Z)) (c : char) : bool :=
  existsb (in_range c) tbl.

(** Code points with a Numeric_Type (Decimal, Digit or Numeric): the
    characters for which [str.isnumeric] holds. *)
Definition numeric_ranges : list (Z * Z) :=
  [
    (48, 57); (178, 179); (185, 185); (188, 190); (1632, 1641);
    (1776, 1785); (1984, 1993); (2406, 2415); (2534, 2543); (2548, 2553);
    (2662, 2671); (2790, 2799); (2918, 2927); (2930, 2935); (3046, 3058);
    (3174, 3183); (3192, 3198); (3302, 3311); (3416, 3422); (3430, 3448);
    (3558, 3567); (3664, 3673); (3792, 3801); (3872, 3891); (4160, 4169);
    (4240, 4249); (4969, 4988); (5870, 5872); (6112, 6121); (6128, 6137);
    (6160, 6169); (6470, 6479); (6608, 6618); (6784, 6793); (6800, 6809);
    (6992, 7001); (7088, 7097); (7232, 7241); (7248, 7257); (8304, 8304);
    (8308, 8313); (8320, 8329); (8528, 8578); (8581, 8585); (9312, 9371);
    (9450, 9471); (10102, 10131); (11517, 11517); (12295, 12295);
    (12321, 12329); (12344, 12346); (12690, 12693); (12832, 12841);
    (12872, 12879); (12881, 12895); (12928, 12937); (12977, 12991);
    (13317, 13317); (13443, 13443); (14378, 14378); (15181, 15181);
    (19968, 19968); (19971, 19971); (19975, 19975); (19977, 19977);
    (20061, 20061); (20108, 20108); (20116, 20116); (20118, 20118);
    (20159, 20160); (20191, 20191); (20200, 20200); (20237, 20237);
    (20336, 20336); (20740, 20740); (20806, 20806); (20841, 20841);
    (20843, 20843); (20845, 20845); (21313, 21313); (21315, 21317);
    (21324, 21324); (21441, 21444); (22235, 22235); (22769, 22769);
    (22777, 22777); (24186, 24186); (24318, 24319); (24332, 24334);
    (24336, 24336); (25342, 25342); (25420, 25420); (26578, 26578);
    (28422, 28422); (29590, 29590); (30334, 30334); (32902, 32902);
    (33836, 33836); (36014, 36014); (36019, 36019); (36144, 36144);
    (38433, 38433); (38470, 38470); (38476, 38476); (38520, 38520);
    (38646, 38646); (42528, 42537); (42726, 42735); (43056, 43061);
    (43216, 43225); (43264, 43273); (43472, 43481); (43504, 43513);
    (43600, 43609); (44016, 44025); (63851, 63851); (63859, 63859);
    (63864, 63864); (63922, 63922); (63953, 63953); (63955, 63955);
    (63997, 63997); (65296, 65305); (65799, 65843); (65856, 65912);
    (65930, 65931); (66273, 66299); (66336, 66339); (66369, 66369);
    (66378, 66378); (66513, 66517); (66720, 66729); (67672, 67679);
    (67705, 67711); (67751, 67759); (67835, 67839); (67862, 67867);
    (68028, 68029); (68032, 68047); (68050, 68095); (68160, 68168);
    (68221, 68222); (68253, 68255); (68331, 68335); (68440, 68447);
    (68472, 68479); (68521, 68527); (68858, 68863); (68912, 68921);
    (69216, 69246); (69405, 69414); (69457, 69460); (69573, 69579);
    (69714, 69743); (69872, 69881); (69942, 69951); (70096, 70105);
    (70113, 70132); (70384, 70393); (70736, 70745); (70864, 70873);
    (71248, 71257); (71360, 71369); (71472, 71483); (71904, 71922);
    (72016, 72025); (72784, 72812); (73040, 73049); (73120, 73129);
    (73664, 73684); (74752, 74862); (92768, 92777); (92864, 92873);
    (93008, 93017); (93019, 93025); (93824, 93846); (119520, 119539);
    (119648, 119672); (120782, 120831); (123200, 123209); (123632, 123641);
    (125127, 125135); (125264, 125273); (126065, 126123); (126125, 126127);
    (126129, 126132); (126209, 126253); (126255, 126269); (127232, 127244);
    (130032, 130041); (131073, 131073); (131172, 131172); (131298, 131298);
    (131361, 131361); (133418, 133418); (133507, 133507); (133516, 133516);
    (133532, 133532); (133866, 133866); (133885, 133885); (133913, 133913);
    (140176, 140176); (141720, 141720); (146203, 146203); (156269, 156269);
    (194704, 194704)
  ].

(** Code points of category Nd: [str.isdecimal], the regular-expression
    class [\d] on [str] patterns, and the digits [int()] converts.  Every
    range starts at a digit zero and holds whole runs of ten digits. *)
Definition decimal_ranges : list (Z * Z) :=
  [
    (48, 57); (1632, 1641); (1776, 1785); (1984, 1993); (2406, 2415);
    (2534, 2543); (2662, 2671); (2790, 2799); (2918, 2927); (3046, 3055);
    (3174, 3183); (3302, 3311); (3430, 3439); (3558, 3567); (3664, 3673);
    (3792, 3801); (3872, 3881); (4160, 4169); (4240, 4249); (6112, 6121);
    (6160, 6169); (6470, 6479); (6608, 6617); (6784, 6793); (6800, 6809);
    (6992, 7001); (7088, 7097); (7232, 7241); (7248, 7257); (42528, 42537);
    (43216, 43225); (43264, 43273); (43472, 43481); (43504, 43513);
    (43600, 43609); (44016, 44025); (65296, 65305); (66720, 66729);
    (68912, 68921); (69734, 69743); (69872, 69881); (69942, 69951);
    (70096, 70105); (70384, 70393); (70736, 70745); (70864, 70873);
    (71248, 71257); (71360, 71369); (71472, 71481); (71904, 71913);
    (72016, 72025); (72784, 72793); (73040, 73049); (73120, 73129);
    (92768, 92777); (92864, 92873); (93008, 93017); (120782, 120831);
    (123200, 123209); (123632, 123641); (125264, 125273); (130032, 130041)
  ].

Definition char_isnumeric (c : char) : bool := in_ranges numeric_ranges c.
Definition char_isdecimal (c : char) : bool := in_ranges decimal_ranges c.

(** [str.isnumeric]: every character is numeric and there is at least one. *)
Definition isnumeric (s : pystr) : bool :=
  match s with
  | [] => false
  | _ => forallb char_isnumeric s
  end.

Definition decimal_value (c : char) : option Z :=
  match find (in_range c) decimal_ranges with
  | Some r => Some ((c - fst r) mod 10)
  | None => None
  end.

(** [int(s)] on the strings the date pattern can capture: surrounding
    spaces are stripped, then every character must be a decimal digit.
    (Signs and underscores, which the pattern never captures, are left
    out.) *)
Fixpoint digits_value (acc : Z) (s : pystr) : option Z :=
  match s with
  | [] => Some acc
  | c :: s' =>
      match decimal_value c with
      | Some v => digits_value (10 * acc + v) s'
      | None => None
      end
  end.

Fixpoint lstrip_space (s : pystr) : pystr :=
  match s with
  | c :: s' => if c =? 32 then lstrip_space s' else s
  | [] => []
  end.

Definition strip_space (s : pystr) : pystr :=
  rev (lstrip_space (rev (lstrip_space s))).

Definition int (s : pystr) : option Z :=
  match strip_space s with
  | [] => None
  | t => digits_value 0 t
  end.

(** *** [list.remove(x)]
    Removes the first item equal to [x] and raises [ValueError] when there
    is none.  [x] is any object: an item-like value or [None], which no
    item equals. *)
Fixpoint list_remove {A} (eqb : A -> A -> bool) (l : list A) (x : option A)
  : result (list A) :=
  match l with
  | [] => Raise (ValueError None)
  | y :: l' =>
      if match x with Some v => eqb y v | None => false end
      then Ok l'
      else match list_remove eqb l' x with
           | Ok r => Ok (y :: r)
           | Raise e => Raise e
           end
  end.

(** *** [dict] with [str] keys
    Insertion-ordered; assigning to a key already present keeps its place. *)
Definition dict (V : Type) := list (pystr * V).

Fixpoint dict_setitem {V} (d : dict V) (k : pystr) (v : V) : dict V :=
  match d with
  | [] => [(k, v)]
  | (k', v') :: d' =>
      if str_eqb k' k then (k', v) :: d'
      else (k', v') :: dict_setitem d' k v
  end.

Fixpoint dict_get {V} (d : dict V) (k : pystr) : option V :=
  match d with
  | [] => None
  | (k', v') :: d' => if str_eqb k' k then Some v' else dict_get d' k
  end.

Definition dict_values {V} (d : dict V) : list V := map snd d.

End Py.

(** ** More of [str]: whitespace, [strip], [split] and [join] *)
Module PyStr.
Import Py.

(** The characters of [str.isspace], which [strip()] and [split()] treat
    as whitespace (Unicode 14.0). *)
Definition whitespace_ranges : list (Z * Z) :=
  [ (9, 13); (28, 32); (133, 133); (160, 160); (5760, 5760); (8192, 8202);
    (8232, 8233); (8239, 8239); (8287, 8287); (12288, 12288) ].

Definition isspace (c : char) : bool := in_ranges whitespace_ranges c.

Fixpoint lstrip (s : pystr) : pystr :=
  match s with
  | c :: s' => if isspace c then lstrip s' else s
  | [] => []
  end.

(** [s.strip()] *)
Definition strip (s : pystr) : pystr := rev (lstrip (rev (lstrip s))).

(** [s.split()]: the maximal runs of non-whitespace characters.  [word]
    holds, reversed, the run being read. *)
Fixpoint split_from (word : pystr) (s : pystr) : list pystr :=
  match s with
  | [] => match word with [] => [] | _ => [rev word] end
  | c :: s' =>
      if isspace c
      then match word with
           | [] => split_from [] s'
           | _ => rev word :: split_from [] s'
           end
      else split_from (c :: word) s'
  end.

Definition split (s : pystr) : list pystr := split_from [] s.

(** [sep.join(l)] *)
Fixpoint join (sep : pystr) (l : list pystr) : pystr :=
  match l with
  | [] => []
  | [x] => x
  | x :: l' => x ++ sep ++ join sep l'
  end.

End PyStr.

(** ** The [datetime] module: dates, ordinals, parsing and formatting *)
Module Datetime.
Import Py.

Definition MINYEAR : Z := 1.
Definition MAXYEAR : Z := 9999.
Definition _MAXORDINAL : Z := 3652059.

(** Index 0 is a placeholder, as in the library's tables. *)
Definition _DAYS_IN_MONTH : list Z :=
  [-1; 31; 28; 31; 30; 31; 30; 31; 31; 30; 31; 30; 31].
Definition _DAYS_BEFORE_MONTH : list Z :=
  [-1; 0; 31; 59; 90; 120; 151; 181; 212; 243; 273; 304; 334].

Definition item (l : list Z) (i : Z) : Z := nth (Z.to_nat i) l (-1).

Definition b2z (b : bool) : Z := if b then 1 else 0.

Definition _is_leap (year : Z) : bool :=
  (year mod 4 =? 0) && (negb (year mod 100 =? 0) || (year mod 400 =? 0)).

Definition _days_before_year (year : Z) : Z :=
  let y := year - 1 in
  y * 365 + y / 4 - y / 100 + y / 400.

Definition _days_in_month (year month : Z) : Z :=
  if (month =? 2) && _is_leap year then 29 else item _DAYS_IN_MONTH month.

Definition _days_before_month (year month : Z) : Z :=
  item _DAYS_BEFORE_MONTH month + b2z ((2 <? month) && _is_leap year).

Definition _ymd2ord (year month day : Z) : Z :=
  _days_before_year year + _days_before_month year month + day.

Definition _DI400Y : Z := Eval cbv in _days_before_year 401.
Definition _DI100Y : Z := Eval cbv in _days_before_year 101.
Definition _DI4Y : Z := Eval cbv in _days_before_year 5.

Definition _ord2ymd (n : Z) : Z * Z * Z :=
  let n := n - 1 in
  let n400 := n / _DI400Y in
  let n := n mod _DI400Y in
  let year := n400 * 400 + 1 in
  let n100 := n / _DI100Y in
  let n := n mod _DI100Y in
  let n4 := n / _DI4Y in
  let n := n mod _DI4Y in
  let n1 := n / 365 in
  let n := n mod 365 in
  let year := year + (n100 * 100 + n4 * 4 + n1) in
  if (n1 =? 4) || (n100 =? 4) then (year - 1, 12, 31)
  else
    let leapyear := (n1 =? 3) && (negb (n4 =? 24) || (n100 =? 3)) in
    let month := Z.shiftr (n + 50) 5 in
    let preceding :=
      item _DAYS_BEFORE_MONTH month + b2z ((2 <? month) && leapyear) in
    let '(month, preceding) :=
      if n <? preceding
      then (month - 1,
            preceding - (item _DAYS_IN_MONTH (month - 1)
                         + b2z ((month - 1 =? 2) && leapyear)))
      else (month, preceding) in
    (year, month, n - preceding + 1).

(** A [date] object.  Objects are only made by [date_new], which checks the
    fields, so every date the program holds satisfies [valid_date]. *)
Record date := mkdate { year : Z; month : Z; day : Z }.

Definition valid_dateb (d : date) : bool :=
  (MINYEAR <=? year d) && (year d <=? MAXYEAR)
  && (1 <=? month d) && (month d <=? 12)
  && (1 <=? day d) && (day d <=? _days_in_month (year d) (month d)).

Definition valid_date (d : date) : Prop := valid_dateb d = true.

Definition valid_ymd (y m d : Z) : Prop :=
  1 <= y <= 9999 /\ 1 <= m <= 12 /\ 1 <= d <= _days_in_month y m.

(** [date(year, month, day)], with [_check_date_fields]. *)
Definition date_new (y m d : Z) : result date :=
  if negb ((MINYEAR <=? y) && (y <=? MAXYEAR)) then Raise (ValueError None)
  else if negb ((1 <=? m) && (m <=? 12)) then Raise (ValueError None)
  else if negb ((1 <=? d) && (d <=? _days_in_month y m))
       then Raise (ValueError None)
  else Ok (mkdate y m d).

(** [self.replace(year=y)] *)
Definition replace_year (self : date) (y : Z) : result date :=
  date_new y (month self) (day self).

Definition toordinal (self : date) : Z :=
  _ymd2ord (year self) (month self) (day self).

Definition fromordinal (n : Z) : result date :=
  let '(y, m, d) := _ord2ymd n in date_new y m d.

(** Monday is 0, Sunday is 6. *)
Definition weekday (self : date) : Z := (toordinal self + 6) mod 7.

(** [self < other]: comparison of the (year, month, day) tuples. *)
Definition date_lt (self other : date) : bool :=
  (year self <? year other)
  || ((year self =? year other)
      && ((month self <? month other)
          || ((month self =? month other) && (day self <? day other)))).

(** [(self - other).days] *)
Definition sub_days (self other : date) : Z := toordinal self - toordinal other.

(** [self + timedelta(days=n)] *)
Definition add_days (self : date) (n : Z) : result date :=
  let o := toordinal self + n in
  if (0 <? o) && (o <=? _MAXORDINAL) then fromordinal o
  else Raise OverflowError.

End Datetime.

(** ** Parsing and printing dates in the format ["%d.%m.%Y"] *)
Module Strptime.
Import Py Datetime.

(** The fragment of regular expressions that [_strptime] builds for this
    format: literals, character ranges, [\d], sequence, ordered choice and
    named groups. *)
Inductive regex :=
| Lit (c : char)
| Rng (lo hi : char)
| Dig
| Cat (r1 r2 : regex)
| Alt (r1 r2 : regex)
| Grp (name : string) (r : regex).

Definition ch (a : ascii) : char := Z.of_N (N_of_ascii a).

(** The span (start, end) of each named group that took part in a match. *)
Definition spans := list (string * (nat * nat)).

(** Backtracking match of [r] against [s], the input from position [pos]
    on; [k] continues with the spans recorded so far, the unread input and
    its position.  A choice tries its left branch first and falls back to
    the right one when the continuation fails. *)
Fixpoint rmatch {A} (r : regex) (s : pystr) (pos : nat) (caps : spans)
         (k : spans -> pystr -> nat -> option A) : option A :=
  match r with
  | Lit c =>
      match s with
      | x :: s' => if x =? c then k caps s' (S pos) else None
      | [] => None
      end
  | Rng lo hi =>
      match s with
      | x :: s' => if (lo <=? x) && (x <=? hi) then k caps s' (S pos) else None
      | [] => None
      end
  | Dig =>
      match s with
      | x :: s' => if char_isdecimal x then k caps s' (S pos) else None
      | [] => None
      end
  | Cat r1 r2 =>
      rmatch r1 s pos caps (fun caps' s' pos' => rmatch r2 s' pos' caps' k)
  | Alt r1 r2 =>
      match rmatch r1 s pos caps k with
      | Some a => Some a
      | None => rmatch r2 s pos caps k
      end
  | Grp name r =>
      rmatch r s pos caps
        (fun caps' s' pos' => k ((name, (pos, pos')) :: caps') s' pos')
  end.

(** [pattern.match(s)]: the first match at the start of [s], as the group
    spans and [found.end()]. *)
Definition re_match (r : regex) (s : pystr) : option (spans * nat) :=
  rmatch r s 0%nat [] (fun caps _ e => Some (caps, e)).

Fixpoint span (caps : spans) (name : string) : option (nat * nat) :=
  match caps with
  | [] => None
  | (n, v) :: caps' => if String.eqb n name then Some v else span caps' name
  end.

(** [s[b:e]] *)
Definition slice (s : pystr) (b e : nat) : pystr := firstn (e - b) (skipn b s).

(** [found.groupdict()[name]] *)
Definition group (s : pystr) (caps : spans) (name : string) : option pystr :=
  match span caps name with
  | Some (b, e) => Some (slice s b e)
  | None => None
  end.

(** What it means for [r] to match exactly the string [s] placed at
    position [pos], recording the spans [c] (latest group first). *)
Inductive matches : regex -> nat -> pystr -> spans -> Prop :=
| matches_Lit c pos : matches (Lit c) pos [c] []
| matches_Rng lo hi x pos :
    lo <= x <= hi -> matches (Rng lo hi) pos [x] []
| matches_Dig x pos :
    char_isdecimal x = true -> matches Dig pos [x] []
| matches_Cat r1 r2 pos s1 s2 c1 c2 :
    matches r1 pos s1 c1 ->
    matches r2 (pos + List.length s1) s2 c2 ->
    matches (Cat r1 r2) pos (s1 ++ s2) (c2 ++ c1)
| matches_Alt_l r1 r2 pos s c :
    matches r1 pos s c -> matches (Alt r1 r2) pos s c
| matches_Alt_r r1 r2 pos s c :
    matches r2 pos s c -> matches (Alt r1 r2) pos s c
| matches_Grp name r pos s c :
    matches r pos s c ->
    matches (Grp name r) pos s ((name, (pos, pos + List.length s)%nat) :: c).

(** [(?P<d>3[0-1]|[1-2]\d|0[1-9]|[1-9]| [1-9])] *)
Definition re_d : regex :=
  Grp "d"
    (Alt (Cat (Lit (ch "3")) (Rng (ch "0") (ch "1")))
    (Alt (Cat (Rng (ch "1") (ch "2")) Dig)
    (Alt (Cat (Lit (ch "0")) (Rng (ch "1") (ch "9")))
    (Alt (Rng (ch "1") (ch "9"))
         (Cat (Lit (ch " ")) (Rng (ch "1") (ch "9"))))))).

(** [(?P<m>1[0-2]|0[1-9]|[1-9])] *)
Definition re_m : regex :=
  Grp "m"
    (Alt (Cat (Lit (ch "1")) (Rng (ch "0") (ch "2")))
    (Alt (Cat (Lit (ch "0")) (Rng (ch "1") (ch "9")))
         (Rng (ch "1") (ch "9")))).

(** [(?P<Y>\d\d\d\d)] *)
Definition re_Y : regex := Grp "Y" (Cat Dig (Cat Dig (Cat Dig Dig))).

(** The compiled pattern of ["%d.%m.%Y"]; the dots are escaped literals. *)
Definition format_regex : regex :=
  Cat re_d (Cat (Lit (ch ".")) (Cat re_m (Cat (Lit (ch ".")) re_Y))).

(** [datetime.strptime(data_string, "%d.%m.%Y").date()].  [ValueError] when
    the pattern does not match, when input is left over after the match, or
    when the fields are not a date. *)
Definition strptime (data_string : pystr) : result date :=
  match re_match format_regex data_string with
  | None => Raise (ValueError None)
  | Some (found, found_end) =>
      if negb (List.length data_string =? found_end)%nat
      then Raise (ValueError None)
      else
        match group data_string found "Y", group data_string found "m",
              group data_string found "d" with
        | Some gy, Some gm, Some gd =>
            match int gy, int gm, int gd with
            | Some y, Some m, Some d => date_new y m d
            | _, _, _ => Raise (ValueError None)
            end
        | _, _, _ => Raise (ValueError None)
        end
  end.

Definition decimal (n : Z) : pystr :=
  lit (DecimalString.NilZero.string_of_uint (N.to_uint (Z.to_N n))).

(** Two digits, zero-padded: [%d] and [%m]. *)
Definition pad2 (n : Z) : pystr :=
  if n <? 10 then ch "0" :: decimal n else decimal n.

(** [self.strftime("%d.%m.%Y")].  [%Y] is the year as the C library prints
    it: in decimal, four digits from year 1000 on. *)
Definition strftime (self : date) : pystr :=
  pad2 (day self) ++ [ch "."] ++ pad2 (month self) ++ [ch "."]
  ++ decimal (year self).

End Strptime.

(** ** The fields *)
Module Phone.
Import Py.

Record t := mk { value : pystr }.

Definition phone_validation (value : pystr) : bool :=
  (len value =? 10) && isnumeric value.

Definition init (value : pystr) : result t :=
  if negb (phone_validation value)
  then Raise (ValueError (Some "Invalid phone number"%string))
  else Ok (mk value).

End Phone.

Module Birthday.
Import Py.

Record t := mk { value : pystr }.

Definition init (value : pystr) : result t :=
  match Strptime.strptime value with
  | Raise (ValueError _) =>
      Raise (ValueError (Some "Invalid date format. Use DD.MM.YYYY"%string))
  | Raise e => Raise e
  | Ok _ => Ok (mk value)
  end.

End Birthday.

Module Name.
Import Py PyStr.

Record t := mk { value : pystr }.

(** The name is kept as given; only its stripped form is tested. *)
Definition init (value : pystr) : result t :=
  match strip value with
  | [] => Raise (ValueError (Some "Name cannot be empty"%string))
  | _ => Ok (mk value)
  end.

End Name.

(** ** A contact record *)
Module Record.
Import Py.

(** [Phone] objects compare by identity.  The only object ever handed to
    [list.remove] is the one [find_phone] returned, the first item with the
    given value, so comparing values removes the same item. *)
Record t := mk {
  name : pystr;
  phones : list Phone.t;
  birthday : option Birthday.t
}.

(** Methods run on the record [self], may replace it and may raise; what
    was assigned before an exception stays assigned. *)
Definition M (A : Type) : Type := t -> result A * t.

Definition ret {A} (a : A) : M A := fun self => (Ok a, self).
Definition raise {A} (e : exn) : M A := fun self => (Raise e, self).
Definition bind {A B} (m : M A) (f : A -> M B) : M B :=
  fun self =>
    match m self with
    | (Ok a, self') => f a self'
    | (Raise e, self') => (Raise e, self')
    end.
Definition lift {A} (r : result A) : M A := fun self => (r, self).
Definition get_phones : M (list Phone.t) := fun self => (Ok (phones self), self).
Definition set_phones (l : list Phone.t) : M unit :=
  fun self => (Ok tt, mk (name self) l (birthday self)).
Definition set_birthday (b : Birthday.t) : M unit :=
  fun self => (Ok tt, mk (name self) (phones self) (Some b)).

Declare Scope method_scope.
Delimit Scope method_scope with method.
Notation "x <- m ;; k" := (bind m (fun x => k))
  (at level 61, m at next level, right associativity) : method_scope.
Notation "m ;; k" := (bind m (fun _ => k))
  (at level 61, right associativity) : method_scope.
Local Open Scope method_scope.

Definition phone_eqb (a b : Phone.t) : bool :=
  str_eqb (Phone.value a) (Phone.value b).

Definition add_birthday (birthday : pystr) : M unit :=
  b <- lift (Birthday.init birthday) ;;
  set_birthday b.

Definition add_phone (phone : pystr) : M unit :=
  p <- lift (Phone.init phone) ;;
  l <- get_phones ;;
  set_phones (l ++ [p]).

Definition find_phone (phone : pystr) : M (option Phone.t) :=
  l <- get_phones ;;
  ret (find (fun i => str_eqb (Phone.value i) phone) l).

Definition remove_phone (phone : pystr) : M unit :=
  phone_number <- find_phone phone ;;
  l <- get_phones ;;
  l' <- lift (list_remove phone_eqb l phone_number) ;;
  set_phones l'.

Definition edit_phone (old_phone new_phone : pystr) : M unit :=
  phone_number <- find_phone old_phone ;;
  match phone_number with
  | None => raise (ValueError (Some EmptyString))
  | Some _ =>
      add_phone new_phone ;;
      remove_phone old_phone
  end.

(** [Record(name)] *)
Definition init (name : pystr) : result t :=
  match Name.init name with
  | Raise e => Raise e
  | Ok n => Ok (mk (Name.value n) [] None)
  end.

(** [str(self)] *)
Definition to_str (self : t) : pystr :=
  lit "Contact name: " ++ name self ++ lit ", phones: "
  ++ PyStr.join (lit "; ") (map Phone.value (phones self)).

End Record.

(** ** The address book *)
Module AddressBook.
Import Py Datetime.

(** [UserDict]: the records live in [self.data], keyed by name. *)
Definition t := dict Record.t.

Definition add_record (self : t) (record : Record.t) : t :=
  dict_setitem self (Record.name record) record.

Definition find (self : t) (name : pystr) : option Record.t :=
  dict_get self name.

(** One item of the result: [{"name": ..., "birthday": ...}]. *)
Record entry := mk_entry { entry_name : pystr; entry_birthday : pystr }.

(** The body of the loop for one record: the new [upcoming_birthdays]. *)
Definition visit (today : date) (record : Record.t)
           (upcoming_birthdays : list entry) : result (list entry) :=
  match Record.birthday record with
  | None => Ok upcoming_birthdays
  | Some b =>
      match Strptime.strptime (Birthday.value b) with
      | Raise e => Raise e
      | Ok birthday_date =>
          match replace_year birthday_date (year today) with
          | Raise e => Raise e
          | Ok birthday_this_year =>
              match (if date_lt birthday_this_year today
                     then replace_year birthday_this_year (year today + 1)
                     else Ok birthday_this_year) with
              | Raise e => Raise e
              | Ok birthday_this_year =>
                  let delta := sub_days birthday_this_year today in
                  if (0 <=? delta) && (delta <=? 7) then
                    match (if weekday birthday_this_year =? 5
                           then add_days birthday_this_year 2
                           else if weekday birthday_this_year =? 6
                           then add_days birthday_this_year 1
                           else Ok birthday_this_year) with
                    | Raise e => Raise e
                    | Ok congratulation_date =>
                        Ok (upcoming_birthdays
                            ++ [mk_entry (Record.name record)
                                  (Strptime.strftime congratulation_date)])
                    end
                  else Ok upcoming_birthdays
              end
          end
      end
  end.

Fixpoint loop (today : date) (records : list Record.t)
         (upcoming_birthdays : list entry) : result (list entry) :=
  match records with
  | [] => Ok upcoming_birthdays
  | record :: rest =>
      match visit today record upcoming_birthdays with
      | Raise e => Raise e
      | Ok upcoming_birthdays' => loop today rest upcoming_birthdays'
      end
  end.

(** [today] stands for the value of [date.today()]. *)
Definition get_upcoming_birthdays (self : t) (today : date)
  : result (list entry) :=
  loop today (dict_values self) [].

(** [dict.pop(k, None)] *)
Fixpoint dict_pop {V} (d : dict V) (k : pystr) : option V * dict V :=
  match d with
  | [] => (None, [])
  | (k', v') :: d' =>
      if str_eqb k' k then (Some v', d')
      else let '(found, rest) := dict_pop d' k in (found, (k', v') :: rest)
  end.

(** [self.delete(name)]: the record removed, or [None], and the book left. *)
Definition delete (self : t) (name : pystr) : option Record.t * t :=
  dict_pop self name.

(** [str(self)] *)
Definition to_str (self : t) : pystr :=
  PyStr.join (lit (String "010"%char EmptyString))
    (map Record.to_str (dict_values self)).

End AddressBook.

(** ** Vocabulary of the specification *)
Module Spec.
Import Py Datetime.

(** A phone entry equal to [v]. *)
Definition has_value (v : pystr) (p : Phone.t) : bool :=
  str_eqb (Phone.value p) v.

(** The list without its first phone of value [v]. *)
Fixpoint remove_first (v : pystr) (l : list Phone.t) : list Phone.t :=
  match l with
  | [] => []
  | p :: l' => if has_value v p then l' else p :: remove_first v l'
  end.

(** How many phones of the list have value [v]. *)
Definition occurrences (v : pystr) (l : list Phone.t) : nat :=
  List.length (filter (has_value v) l).

(** One of the ASCII digits ['0'] to ['9']. *)
Definition ascii_digit (c : char) : Prop := 48 <= c <= 57.

(** Ten characters, each an ASCII digit. *)
Definition ten_ascii_digits (s : pystr) : Prop :=
  List.length s = 10%nat /\ Forall ascii_digit s.

Definition is_ascii (c : char) : Prop := 0 <= c < 128.

(** *** Birthday strings *)

Definition leap_year (y : Z) : bool :=
  ((y mod 4 =? 0) && negb (y mod 100 =? 0)) || (y mod 400 =? 0).

Definition month_length (y m : Z) : Z :=
  match m with
  | 1 | 3 | 5 | 7 | 8 | 10 | 12 => 31
  | 4 | 6 | 9 | 11 => 30
  | 2 => if leap_year y then 29 else 28
  | _ => 0
  end.

(** A day of the calendar, years 1 to 9999. *)
Definition real_date (y m d : Z) : Prop :=
  1 <= y <= 9999 /\ 1 <= m <= 12 /\ 1 <= d <= month_length y m.

(** The day fields the parser reads, with their values: [30] or [31]; [1]
    or [2] and any decimal digit; [0] and a digit [1]-[9]; a digit [1]-[9]
    alone or after a space. *)
Inductive day_field : pystr -> Z -> Prop :=
| day_3x c : 48 <= c <= 49 -> day_field [51; c] (30 + (c - 48))
| day_1x_2x c1 c2 v :
    49 <= c1 <= 50 -> decimal_value c2 = Some v ->
    day_field [c1; c2] (10 * (c1 - 48) + v)
| day_0x c : 49 <= c <= 57 -> day_field [48; c] (c - 48)
| day_x c : 49 <= c <= 57 -> day_field [c] (c - 48)
| day_space_x c : 49 <= c <= 57 -> day_field [32; c] (c - 48).

(** The month fields: [10] to [12]; [0] and a digit [1]-[9]; a digit
    [1]-[9] alone. *)
Inductive month_field : pystr -> Z -> Prop :=
| month_1x c : 48 <= c <= 50 -> month_field [49; c] (10 + (c - 48))
| month_0x c : 49 <= c <= 57 -> month_field [48; c] (c - 48)
| month_x c : 49 <= c <= 57 -> month_field [c] (c - 48).

(** The year field: four decimal digits. *)
Inductive year_field : pystr -> Z -> Prop :=
| year_4 c1 c2 c3 c4 v1 v2 v3 v4 :
    decimal_value c1 = Some v1 -> decimal_value c2 = Some v2 ->
    decimal_value c3 = Some v3 -> decimal_value c4 = Some v4 ->
    year_field [c1; c2; c3; c4] (1000 * v1 + 100 * v2 + 10 * v3 + v4).

(** [s] reads as the date [dt]: a day field, a dot, a month field, a dot
    and a year field that together name a day of the calendar. *)
Definition reads_as (s : pystr) (dt : date) : Prop :=
  exists D M Y,
    s = D ++ [46] ++ M ++ [46] ++ Y
    /\ day_field D (day dt) /\ month_field M (month dt)
    /\ year_field Y (year dt)
    /\ real_date (year dt) (month dt) (day dt).

(** The format [DD.MM.YYYY] proper: two, two and four ASCII digits. *)
Definition DD_MM_YYYY (s : pystr) (y m d : Z) : Prop :=
  exists d1 d2 m1 m2 y1 y2 y3 y4,
    Forall ascii_digit [d1; d2; m1; m2; y1; y2; y3; y4]
    /\ s = [d1; d2; 46; m1; m2; 46; y1; y2; y3; y4]
    /\ d = 10 * (d1 - 48) + (d2 - 48)
    /\ m = 10 * (m1 - 48) + (m2 - 48)
    /\ y = 1000 * (y1 - 48) + 100 * (y2 - 48) + 10 * (y3 - 48) + (y4 - 48).

Definition invalid_date_format : exn :=
  ValueError (Some "Invalid date format. Use DD.MM.YYYY"%string).

(** *** Upcoming birthdays *)

(** The date is a day of the calendar. *)
Definition calendar_day (d : date) : bool :=
  (1 <=? year d) && (year d <=? 9999) && (1 <=? month d) && (month d <=? 12)
  && (1 <=? day d) && (day d <=? month_length (year d) (month d)).

(** The day after [d]. *)
Definition next_day (d : date) : date :=
  if day d <? month_length (year d) (month d)
  then mkdate (year d) (month d) (day d + 1)
  else if month d <? 12 then mkdate (year d) (month d + 1) 1
  else mkdate (year d + 1) 1 1.

(** Days from [a] to [b], counted on the proleptic Gregorian calendar. *)
Definition days_between (a b : date) : Z := toordinal b - toordinal a.

(** The next occurrence of the birthday [bd] seen from [today]: the same
    month and day in today's year or, when that day has already passed,
    in the following year.  There is none when the day it falls on is
    not a day of the calendar. *)
Definition occurrence (today bd : date) : option date :=
  let this_year := mkdate (year today) (month bd) (day bd) in
  let next_year := mkdate (year today + 1) (month bd) (day bd) in
  if calendar_day this_year then
    if days_between today this_year <? 0
    then if calendar_day next_year then Some next_year else None
    else Some this_year
  else None.

Definition in_window (today occ : date) : bool :=
  (0 <=? days_between today occ) && (days_between today occ <=? 7).

(** A Saturday moves on two days and a Sunday one day, to the Monday. *)
Definition congratulation (occ : date) : date :=
  if weekday occ =? 5 then next_day (next_day occ)
  else if weekday occ =? 6 then next_day occ
  else occ.

(** The birthday of a record as a date, when it has one. *)
Definition birthday_date (r : Record.t) : option date :=
  match Record.birthday r with
  | Some b =>
      match Strptime.strptime (Birthday.value b) with
      | Ok bd => Some bd
      | Raise _ => None
      end
  | None => None
  end.

(** A record without a birthday, or whose birthday has a next occurrence. *)
Definition resolvable (today : date) (r : Record.t) : bool :=
  match Record.birthday r with
  | None => true
  | Some _ =>
      match birthday_date r with
      | Some bd =>
          match occurrence today bd with Some _ => true | None => false end
      | None => false
      end
  end.

(** What a record adds to the result: its name and congratulation date
    when its next occurrence is 0 to 7 days away, nothing otherwise. *)
Definition contribution (today : date) (r : Record.t)
  : list AddressBook.entry :=
  match birthday_date r with
  | Some bd =>
      match occurrence today bd with
      | Some occ =>
          if in_window today occ
          then [AddressBook.mk_entry (Record.name r)
                  (Strptime.strftime (congratulation occ))]
          else []
      | None => []
      end
  | None => []
  end.

(** *** The month and day within a year *)

(** The last step of [_ord2ymd]: month and day of the day numbered [n]
    from 0 in its year. *)
Definition month_day (leapyear : bool) (n : Z) : Z * Z :=
  let month := Z.shiftr (n + 50) 5 in
  let preceding :=
    item _DAYS_BEFORE_MONTH month + b2z ((2 <? month) && leapyear) in
  let '(month, preceding) :=
    if n <? preceding
    then (month - 1,
          preceding - (item _DAYS_IN_MONTH (month - 1)
                       + b2z ((month - 1 =? 2) && leapyear)))
    else (month, preceding) in
  (month, n - preceding + 1).

(** That step yields a day of some month, [n] days after January 1. *)
Definition month_day_ok (leapyear : bool) (n : Z) : bool :=
  let '(m, d) := month_day leapyear n in
  (1 <=? m) && (m <=? 12) && (1 <=? d)
  && (d <=? (if (m =? 2) && leapyear then 29 else item _DAYS_IN_MONTH m))
  && (item _DAYS_BEFORE_MONTH m + b2z ((2 <? m) && leapyear) + d =? n + 1).

Definition year_days : list Z := map Z.of_nat (seq 0 365).

End Spec.

(** ** Sample data *)
Module Samples.
Import Py Datetime.

Definition sample_record : Record.t :=
  Record.mk (lit "Ann") [Phone.mk (lit "1234567890")] None.

Definition twice_record : Record.t :=
  Record.mk (lit "Ann")
    [Phone.mk (lit "1234567890"); Phone.mk (lit "1234567890")] None.

Definition renamed_record : Record.t :=
  Record.mk (lit "Ann") [Phone.mk (lit "0987654321")] None.

Definition bob_record : Record.t :=
  Record.mk (lit "Bob") [Phone.mk (lit "5555555555")] None.

Definition with_birthday (name birthday : string) : Record.t :=
  Record.mk (lit name) [] (Some (Birthday.mk (lit birthday))).

Definition june_book : AddressBook.t :=
  AddressBook.add_record
    (AddressBook.add_record [] (with_birthday "Ann" "12.06.1990"))
    (with_birthday "Bob" "15.06.1990").

Definition leap_book : AddressBook.t :=
  AddressBook.add_record
    (AddressBook.add_record [] (with_birthday "Ann" "12.06.1990"))
    (with_birthday "Leo" "29.02.2000").

Definition new_year_record : Record.t := with_birthday "Eve" "02.01.1990".

Definition ann_book : AddressBook.t := AddressBook.add_record [] sample_record.

(** Ten times SUPERSCRIPT TWO, U+00B2. *)
Definition superscript_twos : pystr := repeat 178 10.

End Samples.

(** ** The command handlers *)
Module Commands.
Import Py PyStr Datetime.

(** What a handler can raise: the exceptions of the model above, and the
    interpreter's own for a failed lookup, index or attribute access.  A
    tuple unpacking of the wrong length raises [ValueError]. *)
Inductive error :=
| Core (e : exn)
| KeyError
| IndexError
| AttributeError.

Inductive outcome (A : Type) :=
| Return (a : A)
| Throw (e : error).
Arguments Return {A} a.
Arguments Throw {A} e.

(** What a handler returns: a text, or the list of upcoming birthdays. *)
Inductive reply :=
| Text (s : pystr)
| Birthdays (l : list AddressBook.entry).

(** Handlers run on the address book, may change it and may raise; what
    was changed before an exception stays changed. *)
Definition C (A : Type) : Type := AddressBook.t -> outcome A * AddressBook.t.

Definition ret {A} (a : A) : C A := fun book => (Return a, book).
Definition throw {A} (e : error) : C A := fun book => (Throw e, book).
Definition bind {A B} (m : C A) (f : A -> C B) : C B :=
  fun book =>
    match m book with
    | (Return a, book') => f a book'
    | (Throw e, book') => (Throw e, book')
    end.
Definition lift {A} (r : result A) : C A :=
  fun book =>
    (match r with Ok a => Return a | Raise e => Throw (Core e) end, book).

Declare Scope command_scope.
Delimit Scope command_scope with command.
Notation "x <- m ;; k" := (bind m (fun x => k))
  (at level 61, m at next level, right associativity) : command_scope.
Notation "m ;; k" := (bind m (fun _ => k))
  (at level 61, right associativity) : command_scope.
Local Open Scope command_scope.

(** [book.find(name)] *)
Definition find (name : pystr) : C (option Record.t) :=
  fun book => (Return (AddressBook.find book name), book).

(** [book.add_record(record)] *)
Definition add_record (record : Record.t) : C unit :=
  fun book => (Return tt, AddressBook.add_record book record).

(** A method call on [record = book.find(name)].  The record is the
    object the book holds under [name], so what the method assigns shows
    in the book; on [None] the attribute access raises. *)
Definition call {A} (name : pystr) (method : Record.M A) : C A :=
  fun book =>
    match AddressBook.find book name with
    | None => (Throw AttributeError, book)
    | Some record =>
        let '(r, record') := method record in
        (match r with Ok a => Return a | Raise e => Throw (Core e) end,
         dict_setitem book name record')
    end.

(** The functions as written, before [@input_error]. *)
Module Def.

Definition add_contact (args : list pystr) : C reply :=
  match args with
  | name :: phone :: _ =>
      record <- find name ;;
      message <- match record with
                 | None =>
                     record <- lift (Record.init name) ;;
                     add_record record ;;
                     ret (lit "Contact added.")
                 | Some _ => ret (lit "Contact updated.")
                 end ;;
      match phone with
      | [] => ret tt
      | _ => call name (Record.add_phone phone)
      end ;;
      ret (Text message)
  | _ => throw (Core (ValueError None))
  end.

Definition change_contact (args : list pystr) : C reply :=
  match args with
  | [name; old_phone; new_phone] =>
      call name (Record.edit_phone old_phone new_phone) ;;
      ret (Text (lit "Phone number for '" ++ name ++ lit "' updated."))
  | _ => throw (Core (ValueError None))
  end.

Definition get_phone (args : list pystr) : C reply :=
  match args with
  | name :: _ =>
      l <- call name Record.get_phones ;;
      let phones := join (lit "; ") (map Phone.value l) in
      ret (Text (name ++ lit ": " ++ phones))
  | [] => throw IndexError
  end.

Definition show_all (book : AddressBook.t) : pystr :=
  match book with
  | [] => lit "No contacts saved."
  | _ => AddressBook.to_str book
  end.

Definition add_birthday (args : list pystr) : C reply :=
  match args with
  | [name; birthday] =>
      call name (Record.add_birthday birthday) ;;
      ret (Text (lit "Birthday added"))
  | _ => throw (Core (ValueError None))
  end.

Definition show_birthday (args : list pystr) : C reply :=
  match args with
  | name :: _ =>
      record <- find name ;;
      match record with
      | Some r =>
          match Record.birthday r with
          | Some b => ret (Text (Birthday.value b))
          | None => ret (Text (lit "No birthday found"))
          end
      | None => ret (Text (lit "No birthday found"))
      end
  | [] => throw IndexError
  end.

(** [today] stands for the value of [date.today()] inside the query. *)
Definition birthdays (today : date) (args : list pystr) : C reply :=
  l <- (fun book => lift (AddressBook.get_upcoming_birthdays book today) book) ;;
  ret (Birthdays l).

End Def.

(** The [except] clauses of [input_error]; [None] for an exception that
    none of them catches. *)
Definition message_for (e : error) : option pystr :=
  match e with
  | KeyError => Some (lit "Contact is not found.")
  | Core (ValueError _) => Some (lit "Insufficient data")
  | IndexError => Some (lit "Enter a name of contact.")
  | AttributeError => Some (lit "Contact not found.")
  | Core OverflowError => None
  end.

Definition input_error (func : list pystr -> C reply)
  : list pystr -> C reply :=
  fun args book =>
    match func args book with
    | (Return a, book') => (Return a, book')
    | (Throw e, book') =>
        match message_for e with
        | Some m => (Return (Text m), book')
        | None => (Throw e, book')
        end
    end.

Definition add_contact := input_error Def.add_contact.
Definition change_contact := input_error Def.change_contact.
Definition get_phone := input_error Def.get_phone.
Definition add_birthday := input_error Def.add_birthday.
Definition show_birthday := input_error Def.show_birthday.
Definition birthdays (today : date) := input_error (Def.birthdays today).

(** [parse_input]: the command and its arguments, or [None] and no
    arguments for a blank line.  [str.lower] is taken as given. *)
Section ParseInput.
Variable lower : pystr -> pystr.

Definition parse_input (user_input : pystr)
  : result (option pystr * list pystr) :=
  match strip user_input with
  | [] => Ok (None, [])
  | _ =>
      match split user_input with
      | cmd :: args => Ok (Some (lower (strip cmd)), args)
      | [] => Raise (ValueError None)
      end
  end.

End ParseInput.

End Commands.

(** ** Invariants of the data *)
Module Inv.
Import Py Datetime.

(** The keys of the book are distinct and each record is stored under its
    own name. *)
Definition keyed (book : AddressBook.t) : Prop :=
  NoDup (map fst book)
  /\ Forall (fun kv => Record.name (snd kv) = fst kv) book.

(** Phones and birthday of a record are values their validators accept. *)
Definition valid_record (r : Record.t) : Prop :=
  Forall (fun p => Phone.phone_validation (Phone.value p) = true)
         (Record.phones r)
  /\ (forall b, Record.birthday r = Some b ->
                exists d, Strptime.strptime (Birthday.value b) = Ok d).

(** A book as the handlers build it: keyed, and every record valid. *)
Definition sound (book : AddressBook.t) : Prop :=
  keyed book /\ Forall (fun kv => valid_record (snd kv)) book.

End Inv.

(** ** Digits of a printed date *)
Module Digits.
Import Py.

Definition two_digits (n : Z) : pystr := [48 + n / 10; 48 + n mod 10].

Definition four_digits (n : Z) : pystr :=
  [48 + n / 1000; 48 + (n / 100) mod 10; 48 + (n / 10) mod 10; 48 + n mod 10].

(** The integers [a], [a + 1], ... ([count] of them). *)
Definition range (a : Z) (count : nat) : list Z :=
  map (fun i => a + Z.of_nat i) (seq 0 count).

End Digits.

(** * Properties *)

(** ** Strings, lists and dictionaries *)
Section PyFacts.
Import Py.

Lemma str_eqb_refl (a : pystr) : str_eqb a a = true.
Proof.
  induction a as [|x a IH]; simpl; [reflexivity|].
  now rewrite Z.eqb_refl, IH.
Qed.

Lemma str_eqb_eq (a b : pystr) : str_eqb a b = true <-> a = b.
Proof.
  split; [|intros ->; apply str_eqb_refl].
  revert b; induction a as [|x a IH]; intros [|y b]; simpl; try discriminate; auto.
  intros H; apply andb_true_iff in H as [Hx Hr].
  apply Z.eqb_eq in Hx; apply IH in Hr; congruence.
Qed.

Lemma str_eqb_neq (a b : pystr) : str_eqb a b = false <-> a <> b.
Proof.
  rewrite <- str_eqb_eq; destruct (str_eqb a b); split; congruence.
Qed.

Lemma list_remove_None {A} (eqb : A -> A -> bool) (l : list A) :
  list_remove eqb l None = Raise (ValueError None).
Proof.
  induction l as [|y l IH]; simpl; [reflexivity|now rewrite IH].
Qed.

Lemma dict_get_setitem_same {V} (d : dict V) (k : pystr) (v : V) :
  dict_get (dict_setitem d k v) k = Some v.
Proof.
  induction d as [|[k' v'] d IH]; simpl.
  - now rewrite str_eqb_refl.
  - destruct (str_eqb k' k) eqn:E; simpl; rewrite E; auto.
Qed.

Lemma dict_get_setitem_other {V} (d : dict V) (k k' : pystr) (v : V) :
  k' <> k -> dict_get (dict_setitem d k v) k' = dict_get d k'.
Proof.
  intros Hne; induction d as [|[k0 v0] d IH]; simpl.
  - assert (str_eqb k k' = false) as -> by (apply str_eqb_neq; congruence).
    reflexivity.
  - destruct (str_eqb k0 k) eqn:E; simpl.
    + apply str_eqb_eq in E; subst k0.
      assert (str_eqb k k' = false) as -> by (apply str_eqb_neq; congruence).
      reflexivity.
    + destruct (str_eqb k0 k'); auto.
Qed.

Lemma dict_setitem_present_length {V} (d : dict V) (k : pystr) (v w : V) :
  List.length (dict_setitem (dict_setitem d k v) k w)
  = List.length (dict_setitem d k v).
Proof.
  induction d as [|[k0 v0] d IH]; simpl.
  - now rewrite str_eqb_refl.
  - destruct (str_eqb k0 k) eqn:E; simpl; rewrite E; simpl; auto.
Qed.

End PyFacts.

(** ** Phones of a record *)
Section RecordFacts.
Import Py Record Spec.

Lemma has_value_eq (v : pystr) (p : Phone.t) :
  has_value v p = true <-> Phone.value p = v.
Proof. apply str_eqb_eq. Qed.

Lemma find_absent (v : pystr) (l : list Phone.t) :
  (forall p, In p l -> Phone.value p <> v) -> find (has_value v) l = None.
Proof.
  induction l as [|q l IH]; simpl; intros H; [reflexivity|].
  unfold has_value at 1.
  assert (str_eqb (Phone.value q) v = false) as ->
    by (apply str_eqb_neq, H; now left).
  apply IH; intros p Hp; apply H; now right.
Qed.

Lemma find_present (v : pystr) (l : list Phone.t) :
  (exists p, In p l /\ Phone.value p = v) ->
  exists p, find (has_value v) l = Some p /\ Phone.value p = v.
Proof.
  intros [p [Hin Hv]].
  destruct (find (has_value v) l) as [q|] eqn:E.
  - exists q; split; [reflexivity|].
    apply find_some in E as [_ E]; now apply str_eqb_eq in E.
  - apply (find_none _ _ E) in Hin. unfold has_value in Hin.
    apply str_eqb_neq in Hin; contradiction.
Qed.

Lemma list_remove_found (v : pystr) (l : list Phone.t) (p : Phone.t) :
  find (has_value v) l = Some p ->
  list_remove phone_eqb l (Some p) = Ok (remove_first v l).
Proof.
  induction l as [|q l IH]; simpl; [discriminate|].
  unfold has_value. destruct (str_eqb (Phone.value q) v) eqn:E.
  - intros [= ->].
    assert (phone_eqb p p = true) as -> by apply str_eqb_refl. reflexivity.
  - intros Hf. pose proof (find_some _ _ Hf) as [_ Hp].
    apply str_eqb_eq in Hp.
    assert (phone_eqb q p = false) as -> by (unfold phone_eqb; now rewrite Hp).
    now rewrite (IH Hf).
Qed.

Lemma find_app_present (v : pystr) (l l' : list Phone.t) (p : Phone.t) :
  find (has_value v) l = Some p -> find (has_value v) (l ++ l') = Some p.
Proof.
  induction l as [|q l IH]; simpl; [discriminate|].
  destruct (has_value v q); auto.
Qed.

(** [edit_phone] in closed form: the three ways it can end. *)
Lemma edit_phone_cases (r : Record.t) (old new : pystr) :
  edit_phone old new r =
  match find (has_value old) (phones r) with
  | None => (Raise (ValueError (Some EmptyString)), r)
  | Some _ =>
      if Phone.phone_validation new
      then (Ok tt, Record.mk (name r)
                     (remove_first old (phones r ++ [Phone.mk new]))
                     (birthday r))
      else (Raise (ValueError (Some "Invalid phone number"%string)), r)
  end.
Proof.
  unfold edit_phone, find_phone, bind, get_phones, ret. simpl.
  fold (has_value old).
  destruct (find (has_value old) (phones r)) as [p|] eqn:Ef; [|reflexivity].
  unfold add_phone, remove_phone, find_phone, bind, lift, get_phones,
    set_phones, ret, Phone.init.
  destruct (Phone.phone_validation new); simpl; [|reflexivity].
  fold (has_value old).
  rewrite (find_app_present _ _ [Phone.mk new] _ Ef).
  now rewrite (list_remove_found old _ p (find_app_present _ _ _ _ Ef)).
Qed.

Lemma remove_first_split (v : pystr) (l1 l2 : list Phone.t) (p : Phone.t) :
  Forall (fun q => Phone.value q <> v) l1 -> Phone.value p = v ->
  remove_first v (l1 ++ p :: l2) = l1 ++ l2.
Proof.
  intros H Hp; induction H as [|q l1 Hq _ IH]; simpl.
  - unfold has_value; now rewrite Hp, str_eqb_refl.
  - apply str_eqb_neq in Hq; unfold has_value in *; now rewrite Hq, IH.
Qed.

Lemma first_split (v : pystr) (l : list Phone.t) :
  (exists p, In p l /\ Phone.value p = v) ->
  exists l1 p l2, l = l1 ++ p :: l2 /\ Phone.value p = v
                  /\ Forall (fun q => Phone.value q <> v) l1.
Proof.
  induction l as [|q l IH]; intros [p [Hin Hv]]; [destruct Hin|].
  destruct (str_eqb (Phone.value q) v) eqn:E.
  - apply str_eqb_eq in E. exists [], q, l; auto.
  - apply str_eqb_neq in E. destruct Hin as [->|Hin]; [contradiction|].
    destruct IH as (l1 & p' & l2 & -> & Hp' & Hl1); [eauto|].
    exists (q :: l1), p', l2; auto.
Qed.

End RecordFacts.

(** ** Editing and removing phones *)
Section PhoneClaims.
Import Py Record Spec Samples.

(** C3, as the code has it: when no phone of the record has the given
    value, [find_phone] returns [None] without raising; [remove_phone]
    hands that [None] to [list.remove], which raises [ValueError] because
    [None] is not an item, and the record, hence its phone list, is left
    exactly as it was. *)
Theorem remove_phone_absent (r : Record.t) (value : pystr) :
  (forall p, In p (phones r) -> Phone.value p <> value) ->
  find_phone value r = (Ok None, r)
  /\ list_remove phone_eqb (phones r) None = Raise (ValueError None)
  /\ remove_phone value r = (Raise (ValueError None), r).
Proof.
  intros H. apply find_absent in H.
  unfold remove_phone, find_phone, bind, get_phones, ret, lift; simpl.
  fold (has_value value). rewrite H, list_remove_None. auto.
Qed.

Lemma remove_phone_absent_witness :
  find_phone (lit "0987654321") sample_record = (Ok None, sample_record)
  /\ list_remove phone_eqb (phones sample_record) None
     = Raise (ValueError None)
  /\ remove_phone (lit "0987654321") sample_record
     = (Raise (ValueError None), sample_record).
Proof.
  apply (remove_phone_absent sample_record (lit "0987654321")).
  intros p [<-|[]]; simpl; discriminate.
Defined.

(** C3 as claimed fails in its guard: for a phone that is not in the
    record, the exception of [remove_phone] is not one the method raises
    itself, as [edit_phone] does for the same phone, but the one that comes
    out of [list.remove] applied to [None]. *)
Lemma remove_phone_unguarded_counterexample :
  let value := lit "0987654321" in
  (forall p, In p (phones sample_record) -> Phone.value p <> value)
  /\ find_phone value sample_record = (Ok None, sample_record)
  /\ remove_phone value sample_record
     = (match list_remove phone_eqb (phones sample_record) None with
        | Ok _ => Ok tt
        | Raise e => Raise e
        end, sample_record)
  /\ (exists e, remove_phone value sample_record = (Raise e, sample_record)
                /\ ~ raised_by_program e)
  /\ (exists e, edit_phone value value sample_record = (Raise e, sample_record)
                /\ raised_by_program e).
Proof.
  cbv zeta. split; [|split; [|split; [|split]]].
  - intros p [<-|[]]; simpl; discriminate.
  - reflexivity.
  - reflexivity.
  - exists (ValueError None). split; [reflexivity|].
    intros [m H]; discriminate.
  - exists (ValueError (Some EmptyString)). split; [reflexivity|].
    now exists EmptyString.
Qed.

(** C2: when no phone of the record has value [old], [edit_phone old new]
    raises its own bare [ValueError] whatever [new] is (so [new] is not
    validated first), and the record is unchanged; and in every case a
    failing [edit_phone] leaves the record unchanged, so the record never
    ends up with only one of the two steps done. *)
Theorem edit_phone_atomic (r : Record.t) (old new : pystr) :
  ((forall p, In p (phones r) -> Phone.value p <> old) ->
   edit_phone old new r = (Raise (ValueError (Some EmptyString)), r))
  /\ (forall e r', edit_phone old new r = (Raise e, r') -> r' = r).
Proof.
  rewrite edit_phone_cases. split.
  - intros H. now rewrite (find_absent _ _ H).
  - intros e r'. destruct (find (has_value old) (phones r)).
    + destruct (Phone.phone_validation new); intros [= <-]; congruence.
    + now intros [= _ <-].
Qed.

Lemma edit_phone_atomic_witness :
  edit_phone (lit "0987654321") (lit "not a phone") sample_record
  = (Raise (ValueError (Some EmptyString)), sample_record).
Proof.
  apply (proj1 (edit_phone_atomic sample_record (lit "0987654321")
                  (lit "not a phone"))).
  intros p [<-|[]]; simpl; discriminate.
Defined.

(** C9: when the record has a phone of value [old] and [new] is a valid
    phone, [edit_phone old new] succeeds; the phone list splits at the first
    entry of value [old], and the new list is the entries before it, the
    entries after it (later entries equal to [old] included), and [new] at
    the end; name and birthday are untouched. *)
Theorem edit_phone_frame (r : Record.t) (old new : pystr) :
  (exists p, In p (phones r) /\ Phone.value p = old) ->
  Phone.phone_validation new = true ->
  exists l1 p l2,
    phones r = l1 ++ p :: l2
    /\ Phone.value p = old
    /\ Forall (fun q => Phone.value q <> old) l1
    /\ edit_phone old new r
       = (Ok tt, Record.mk (name r) (l1 ++ l2 ++ [Phone.mk new]) (birthday r)).
Proof.
  intros Hin Hnew.
  destruct (first_split _ _ Hin) as (l1 & p & l2 & Hl & Hp & Hl1).
  exists l1, p, l2. repeat split; auto.
  rewrite edit_phone_cases.
  destruct (find_present _ _ Hin) as (q & -> & _). rewrite Hnew, Hl.
  rewrite <- app_assoc; simpl.
  now rewrite (remove_first_split old l1 (l2 ++ [Phone.mk new]) p Hl1 Hp).
Qed.

Lemma edit_phone_frame_witness :
  exists l1 p l2,
    phones twice_record = l1 ++ p :: l2
    /\ Phone.value p = lit "1234567890"
    /\ Forall (fun q => Phone.value q <> lit "1234567890") l1
    /\ edit_phone (lit "1234567890") (lit "0987654321") twice_record
       = (Ok tt, Record.mk (name twice_record)
                   (l1 ++ l2 ++ [Phone.mk (lit "0987654321")])
                   (birthday twice_record)).
Proof.
  apply (edit_phone_frame twice_record (lit "1234567890") (lit "0987654321")).
  - exists (Phone.mk (lit "1234567890")); split; [now left|reflexivity].
  - reflexivity.
Defined.

Lemma occurrences_remove_first (v w : pystr) (l : list Phone.t) :
  occurrences w (remove_first v l)
  = match find (has_value v) l with
    | Some _ =>
        if str_eqb v w then Nat.pred (occurrences w l) else occurrences w l
    | None => occurrences w l
    end.
Proof.
  unfold occurrences. induction l as [|q l IH]; [reflexivity|].
  cbn [remove_first filter find].
  destruct (has_value v q) eqn:E.
  - apply has_value_eq in E; subst v. cbn [filter].
    change (has_value w q) with (str_eqb (Phone.value q) w).
    destruct (str_eqb (Phone.value q) w); reflexivity.
  - cbn [filter]. destruct (has_value w q) eqn:E2; cbn [List.length].
    + rewrite IH. destruct (find (has_value v) l); [|reflexivity].
      destruct (str_eqb v w) eqn:E3; [|reflexivity].
      apply str_eqb_eq in E3; subst w. congruence.
    + exact IH.
Qed.

Lemma find_occurrences (v : pystr) (l : list Phone.t) :
  find (has_value v) l = None <-> occurrences v l = 0%nat.
Proof.
  unfold occurrences. induction l as [|q l IH]; simpl; [tauto|].
  destruct (has_value v q); simpl; [split; discriminate|exact IH].
Qed.

Lemma occurrences_app (v : pystr) (l l' : list Phone.t) :
  occurrences v (l ++ l') = (occurrences v l + occurrences v l')%nat.
Proof. unfold occurrences. now rewrite filter_app, length_app. Qed.

(** C6, as the code has it: when the record has a phone of value [old] and
    [new] is a valid phone, [edit_phone old new] succeeds and afterwards
    [find_phone new] returns a phone of value [new]; [find_phone old]
    returns [None] exactly when [old] occurred once in the list and [new]
    differs from [old]. *)
Theorem edit_phone_then_find (r : Record.t) (old new : pystr) :
  (exists p, In p (phones r) /\ Phone.value p = old) ->
  Phone.phone_validation new = true ->
  exists r',
    edit_phone old new r = (Ok tt, r')
    /\ (exists p, find_phone new r' = (Ok (Some p), r') /\ Phone.value p = new)
    /\ (find_phone old r' = (Ok None, r')
        <-> occurrences old (phones r) = 1%nat /\ new <> old).
Proof.
  intros Hin Hnew. rewrite edit_phone_cases.
  destruct (find_present _ _ Hin) as (q & Hq & _). rewrite Hq, Hnew.
  eexists; split; [reflexivity|].
  unfold find_phone, bind, get_phones, ret; simpl.
  fold (has_value new) (has_value old).
  set (l' := remove_first old (phones r ++ [Phone.mk new])).
  assert (Hq' := find_app_present _ _ [Phone.mk new] _ Hq).
  assert (Hocc : forall w, occurrences w l'
            = if str_eqb old w
              then Nat.pred (occurrences w (phones r ++ [Phone.mk new]))
              else occurrences w (phones r ++ [Phone.mk new])).
  { intros w. unfold l'. now rewrite occurrences_remove_first, Hq'. }
  assert (Hpos : (1 <= occurrences old (phones r))%nat).
  { destruct (occurrences old (phones r)) eqn:E; [|lia].
    apply find_occurrences in E. congruence. }
  assert (Hone : forall w, occurrences w [Phone.mk new]
                           = if str_eqb new w then 1%nat else 0%nat).
  { intros w. unfold occurrences; simpl. unfold has_value; simpl.
    now destruct (str_eqb new w). }
  split.
  - destruct (find (has_value new) l') as [p|] eqn:Ef.
    + exists p; split; [reflexivity|].
      apply find_some in Ef as [_ Ef]. now apply str_eqb_eq in Ef.
    + exfalso. apply find_occurrences in Ef.
      rewrite Hocc, occurrences_app, Hone, str_eqb_refl in Ef.
      destruct (str_eqb old new) eqn:E; [|lia].
      apply str_eqb_eq in E; subst new. lia.
  - split.
    + intros H. assert (E : find (has_value old) l' = None)
        by (destruct (find (has_value old) l'); congruence).
      apply find_occurrences in E.
      rewrite Hocc, occurrences_app, Hone, str_eqb_refl in E.
      destruct (str_eqb new old) eqn:E2.
      * lia.
      * apply str_eqb_neq in E2. split; [lia|assumption].
    + intros [H1 Hne].
      assert (E : find (has_value old) l' = None).
      { apply find_occurrences.
        rewrite Hocc, occurrences_app, Hone, str_eqb_refl.
        apply str_eqb_neq in Hne. rewrite Hne. lia. }
      now rewrite E.
Qed.

Lemma edit_phone_then_find_witness :
  exists r',
    edit_phone (lit "1234567890") (lit "0987654321") sample_record = (Ok tt, r')
    /\ (exists p, find_phone (lit "0987654321") r' = (Ok (Some p), r')
                  /\ Phone.value p = lit "0987654321")
    /\ (find_phone (lit "1234567890") r' = (Ok None, r')
        <-> occurrences (lit "1234567890") (phones sample_record) = 1%nat
            /\ lit "0987654321" <> lit "1234567890").
Proof.
  apply (edit_phone_then_find sample_record).
  - exists (Phone.mk (lit "1234567890")); split; [now left|reflexivity].
  - reflexivity.
Defined.

(** C6 as claimed fails on a duplicate: the record holds [old] twice, [new]
    is valid and [edit_phone] succeeds, yet [find_phone old] still finds
    the second entry. *)
Lemma edit_phone_duplicate_counterexample :
  let old := lit "1234567890" in
  let new := lit "0987654321" in
  let r' := Record.mk (lit "Ann") [Phone.mk old; Phone.mk new] None in
  In (Phone.mk old) (phones twice_record)
  /\ Phone.phone_validation new = true
  /\ edit_phone old new twice_record = (Ok tt, r')
  /\ find_phone old r' = (Ok (Some (Phone.mk old)), r')
  /\ find_phone old r' <> (Ok None, r').
Proof.
  cbv zeta. repeat split; try (vm_compute; reflexivity).
  - now left.
  - vm_compute. discriminate.
Qed.

End PhoneClaims.

(** ** Adding records to the address book *)
Section BookClaims.
Import Py Record AddressBook Samples.

(** C8: adding a record and then another of the same name (neither call
    can raise) overwrites the first: [find] of that name returns the
    second, and the book has not grown by the second call. *)
Theorem add_record_last_wins (book : AddressBook.t) (r1 r2 : Record.t) :
  Record.name r1 = Record.name r2 ->
  find (add_record (add_record book r1) r2) (Record.name r1) = Some r2
  /\ List.length (add_record (add_record book r1) r2)
     = List.length (add_record book r1).
Proof.
  intros Hn. unfold find, add_record. rewrite <- Hn. split.
  - apply dict_get_setitem_same.
  - apply dict_setitem_present_length.
Qed.

Lemma add_record_last_wins_witness :
  find (add_record (add_record [] sample_record) renamed_record)
       (Record.name sample_record) = Some renamed_record
  /\ List.length (add_record (add_record [] sample_record) renamed_record)
     = List.length (add_record [] sample_record).
Proof.
  apply (add_record_last_wins [] sample_record renamed_record). reflexivity.
Defined.

(** C10: [add_record r] leaves [find n] as it was for every name [n] other
    than the name of [r]. *)
Theorem add_record_frame (book : AddressBook.t) (r : Record.t) (n : pystr) :
  n <> Record.name r ->
  find (add_record book r) n = find book n.
Proof.
  intros Hn. unfold find, add_record. now apply dict_get_setitem_other.
Qed.

Lemma add_record_frame_witness :
  find (add_record (add_record [] bob_record) sample_record) (lit "Bob")
  = find (add_record [] bob_record) (lit "Bob").
Proof.
  apply (add_record_frame (add_record [] bob_record) sample_record (lit "Bob")).
  simpl. discriminate.
Defined.

End BookClaims.

(** ** Phone validation *)
Section PhoneValidation.
Import Py Spec Samples.

Lemma len_length {A} (l : list A) (n : nat) :
  (len l =? Z.of_nat n) = true <-> List.length l = n.
Proof. unfold len. rewrite Z.eqb_eq. lia. Qed.

Lemma isnumeric_forall (s : pystr) :
  s <> [] ->
  isnumeric s = true <-> Forall (fun c => char_isnumeric c = true) s.
Proof.
  intros Hs. destruct s as [|c s]; [congruence|].
  unfold isnumeric. rewrite forallb_forall, Forall_forall. tauto.
Qed.

(** Below U+0080 the numeric characters are the ten ASCII digits. *)
Lemma ascii_numeric (c : char) :
  is_ascii c -> char_isnumeric c = true <-> ascii_digit c.
Proof.
  unfold is_ascii, ascii_digit, char_isnumeric. intros Hc.
  assert (Hsplit : in_ranges numeric_ranges c
                   = in_range c (48, 57) || in_ranges (tl numeric_ranges) c)
    by reflexivity.
  assert (Hrest : in_ranges (tl numeric_ranges) c = false).
  { apply not_true_is_false. intros H.
    apply existsb_exists in H as [[lo hi] [Hin Hr]].
    assert (Hlo : forallb (fun r => 128 <=? fst r)
              (tl numeric_ranges) = true) by (vm_compute; reflexivity).
    rewrite forallb_forall in Hlo. apply Hlo in Hin. cbn [fst] in Hin.
    unfold in_range in Hr; cbn [fst snd] in Hr. lia. }
  rewrite Hsplit, Hrest, orb_false_r. unfold in_range; cbn [fst snd]. lia.
Qed.

(** C4, as the code has it: validation succeeds exactly when the string
    has ten characters, each numeric in the sense of [str.isnumeric]
    (Unicode Numeric_Type); the constructor then returns the phone and
    otherwise raises [ValueError "Invalid phone number"].  On strings of
    ASCII characters this is the claimed criterion: ten ASCII digits. *)
Theorem phone_validation_spec (s : pystr) :
  (Phone.phone_validation s = true
   <-> List.length s = 10%nat /\ Forall (fun c => char_isnumeric c = true) s)
  /\ Phone.init s
     = (if Phone.phone_validation s then Ok (Phone.mk s)
        else Raise (ValueError (Some "Invalid phone number"%string)))
  /\ (Forall is_ascii s ->
      (Phone.phone_validation s = true <-> ten_ascii_digits s)).
Proof.
  assert (H1 : Phone.phone_validation s = true
     <-> List.length s = 10%nat /\ Forall (fun c => char_isnumeric c = true) s).
  { unfold Phone.phone_validation. rewrite andb_true_iff.
    change 10 with (Z.of_nat 10). rewrite len_length. split.
    - intros [Hl Hn]. split; [assumption|].
      apply isnumeric_forall; [|assumption]. now destruct s.
    - intros [Hl Hn]. split; [assumption|].
      apply isnumeric_forall; [|assumption]. now destruct s. }
  split; [exact H1|]. split.
  - unfold Phone.init. now destruct (Phone.phone_validation s).
  - intros Ha. rewrite H1. unfold ten_ascii_digits.
    rewrite !Forall_forall in *. split; intros [Hl Hd]; split; auto;
      intros c Hc; apply (ascii_numeric c (Ha c Hc)); auto.
Qed.

Lemma phone_validation_spec_witness :
  Phone.phone_validation (lit "1234567890") = true
  <-> ten_ascii_digits (lit "1234567890").
Proof.
  apply (proj2 (proj2 (phone_validation_spec (lit "1234567890")))).
  repeat constructor; vm_compute; congruence.
Defined.

(** C4 as claimed fails on non-ASCII numerals: ten SUPERSCRIPT TWO
    characters pass validation and make a phone, though none of them is an
    ASCII digit. *)
Lemma phone_validation_counterexample :
  Phone.phone_validation superscript_twos = true
  /\ Phone.init superscript_twos = Ok (Phone.mk superscript_twos)
  /\ List.length superscript_twos = 10%nat
  /\ ~ ten_ascii_digits superscript_twos.
Proof.
  repeat split; try reflexivity.
  intros [_ H]. inversion H as [|c l Hc _]; subst.
  unfold ascii_digit in Hc. lia.
Qed.

End PhoneValidation.

(** ** Parsing birthdays *)
Section Parsing.
Import Py Datetime Strptime Spec.

Lemma rmatch_sound {A} (r : regex) :
  forall s pos caps (k : spans -> pystr -> nat -> option A) a,
    rmatch r s pos caps k = Some a ->
    exists s1 s2 c,
      s = s1 ++ s2 /\ matches r pos s1 c
      /\ k (c ++ caps) s2 (pos + List.length s1)%nat = Some a.
Proof.
  induction r as [c|lo hi| |r1 IH1 r2 IH2|r1 IH1 r2 IH2|name r IH];
    intros s pos caps k a H; cbn [rmatch] in H.
  - destruct s as [|x s]; [discriminate|].
    destruct (Z.eqb_spec x c) as [->|]; [|discriminate].
    exists [c], s, []. replace (pos + List.length [c])%nat with (S pos) by (simpl; lia).
    repeat split; [constructor|assumption].
  - destruct s as [|x s]; [discriminate|].
    destruct ((lo <=? x) && (x <=? hi)) eqn:E; [|discriminate].
    exists [x], s, []. replace (pos + List.length [x])%nat with (S pos) by (simpl; lia).
    repeat split; [constructor; lia|assumption].
  - destruct s as [|x s]; [discriminate|].
    destruct (char_isdecimal x) eqn:E; [|discriminate].
    exists [x], s, []. replace (pos + List.length [x])%nat with (S pos) by (simpl; lia).
    repeat split; [now constructor|assumption].
  - apply IH1 in H as (s1 & s' & c1 & -> & M1 & H).
    apply IH2 in H as (s2 & s3 & c2 & -> & M2 & H).
    exists (s1 ++ s2), s3, (c2 ++ c1).
    rewrite <- !app_assoc, length_app, Nat.add_assoc.
    repeat split; [now constructor|assumption].
  - destruct (rmatch r1 s pos caps k) as [a'|] eqn:E.
    + injection H as ->. apply IH1 in E as (s1 & s2 & c & -> & M & E).
      exists s1, s2, c; repeat split; [now apply matches_Alt_l|assumption].
    + apply IH2 in H as (s1 & s2 & c & -> & M & E').
      exists s1, s2, c; repeat split; [now apply matches_Alt_r|assumption].
  - apply IH in H as (s1 & s2 & c & -> & M & H).
    exists s1, s2, ((name, (pos, pos + List.length s1)%nat) :: c).
    repeat split; [now constructor|assumption].
Qed.


Lemma isdecimal_value (c : char) :
  char_isdecimal c = true <-> exists v, decimal_value c = Some v.
Proof.
  unfold char_isdecimal, in_ranges, decimal_value.
  induction decimal_ranges as [|r l IH]; cbn [existsb find].
  - split; [discriminate|intros [v H]; discriminate].
  - destruct (in_range c r); cbn [orb]; [|exact IH].
    split; eauto.
Qed.

Lemma decimal_value_range (c : char) (v : Z) :
  decimal_value c = Some v -> 0 <= v <= 9.
Proof.
  unfold decimal_value. destruct (find (in_range c) decimal_ranges);
    [|discriminate].
  intros [= <-]. pose proof (Z.mod_pos_bound (c - fst p) 10). lia.
Qed.

Lemma decimal_value_ascii (c : char) :
  48 <= c <= 57 -> decimal_value c = Some (c - 48).
Proof.
  intros Hc. unfold decimal_value.
  change decimal_ranges with ((48, 57) :: tl decimal_ranges). cbn [find].
  assert (in_range c (48, 57) = true) as ->
    by (unfold in_range; cbn [fst snd]; lia).
  cbn [fst]. now rewrite Z.mod_small by lia.
Qed.

Lemma decimal_not_space (c : char) (v : Z) :
  decimal_value c = Some v -> c <> 32.
Proof. intros H ->. vm_compute in H. discriminate. Qed.

Lemma lstrip_space_head (c : char) (s : pystr) :
  c <> 32 -> lstrip_space (c :: s) = c :: s.
Proof. intros H; cbn [lstrip_space]. now apply Z.eqb_neq in H as ->. Qed.

(** [int] of a string of decimal digits is its positional value. *)
Lemma int_digits (s : pystr) :
  s <> [] -> Forall (fun c => c <> 32) s -> int s = digits_value 0 s.
Proof.
  intros Hne Hs. unfold int, strip_space.
  destruct s as [|c s]; [congruence|].
  rewrite lstrip_space_head by (now inversion Hs).
  destruct (rev (c :: s)) as [|x t] eqn:E.
  - apply (f_equal (@List.length _)) in E. rewrite length_rev in E. discriminate.
  - assert (Hx : x <> 32).
    { rewrite Forall_forall in Hs. apply Hs.
      apply (proj2 (in_rev (c :: s) x)). rewrite E. now left. }
    rewrite lstrip_space_head by assumption.
    replace (rev (x :: t)) with (c :: s)
      by (now rewrite <- E, rev_involutive).
    reflexivity.
Qed.

Lemma int_space (s : pystr) : int (32 :: s) = int s.
Proof. reflexivity. Qed.

Lemma leap_year_is_leap (y : Z) : leap_year y = _is_leap y.
Proof.
  unfold leap_year, _is_leap.
  destruct (Z.eqb_spec (y mod 4) 0), (Z.eqb_spec (y mod 100) 0),
    (Z.eqb_spec (y mod 400) 0); cbn; try reflexivity; exfalso;
    Z.div_mod_to_equations; lia.
Qed.

Lemma month_length_days_in_month (y m : Z) :
  1 <= m <= 12 -> month_length y m = _days_in_month y m.
Proof.
  intros Hm. unfold _days_in_month. rewrite <- leap_year_is_leap.
  assert (m = 1 \/ m = 2 \/ m = 3 \/ m = 4 \/ m = 5 \/ m = 6 \/ m = 7
          \/ m = 8 \/ m = 9 \/ m = 10 \/ m = 11 \/ m = 12) as H by lia.
  repeat (destruct H as [->|H]); try subst m; cbn;
    try reflexivity; now destruct (leap_year y).
Qed.

Lemma date_new_real (y m d : Z) :
  date_new y m d = Ok (mkdate y m d) <-> real_date y m d.
Proof.
  unfold date_new, real_date, MINYEAR, MAXYEAR.
  destruct (Z.leb_spec 1 y), (Z.leb_spec y 9999); cbn;
    try (split; [discriminate|lia]).
  destruct (Z.leb_spec 1 m), (Z.leb_spec m 12); cbn;
    try (split; [discriminate|lia]).
  rewrite <- month_length_days_in_month by lia.
  destruct (Z.leb_spec 1 d), (Z.leb_spec d (month_length y m)); cbn;
    try (split; [discriminate|lia]).
  split; [lia|reflexivity].
Qed.

Lemma date_new_fields (y m d : Z) (dt : date) :
  date_new y m d = Ok dt -> dt = mkdate y m d.
Proof.
  unfold date_new.
  repeat match goal with
         | |- context [if ?b then _ else _] => destruct b
         end; congruence.
Qed.


Ltac invert_matches :=
  repeat match goal with
         | H : matches (Cat _ _) _ _ _ |- _ => inversion H; subst; clear H
         | H : matches (Alt _ _) _ _ _ |- _ => inversion H; subst; clear H
         | H : matches (Grp _ _) _ _ _ |- _ => inversion H; subst; clear H
         | H : matches (Lit _) _ _ _ |- _ => inversion H; subst; clear H
         | H : matches (Rng _ _) _ _ _ |- _ => inversion H; subst; clear H
         | H : matches Dig _ _ _ |- _ => inversion H; subst; clear H
         end.

Lemma int_year (c1 c2 c3 c4 v1 v2 v3 v4 : Z) :
  decimal_value c1 = Some v1 -> decimal_value c2 = Some v2 ->
  decimal_value c3 = Some v3 -> decimal_value c4 = Some v4 ->
  int [c1; c2; c3; c4] = Some (1000 * v1 + 100 * v2 + 10 * v3 + v4).
Proof.
  intros H1 H2 H3 H4. rewrite int_digits; [|discriminate|].
  - cbn [digits_value]. rewrite H1, H2, H3, H4. f_equal; lia.
  - repeat constructor; eapply decimal_not_space; eassumption.
Qed.

Lemma int_two (c1 c2 v1 v2 : Z) :
  decimal_value c1 = Some v1 -> decimal_value c2 = Some v2 ->
  int [c1; c2] = Some (10 * v1 + v2).
Proof.
  intros H1 H2. rewrite int_digits; [|discriminate|].
  - cbn [digits_value]. rewrite H1, H2. f_equal; lia.
  - repeat constructor; eapply decimal_not_space; eassumption.
Qed.

Lemma int_one (c v : Z) : decimal_value c = Some v -> int [c] = Some v.
Proof.
  intros H. rewrite int_digits; [|discriminate|].
  - cbn [digits_value]. now rewrite H.
  - repeat constructor; eapply decimal_not_space; eassumption.
Qed.

Ltac eval_ch :=
  repeat match goal with
         | H : context [ch ?a] |- _ =>
             let v := eval vm_compute in (ch a) in change (ch a) with v in H
         | |- context [ch ?a] =>
             let v := eval vm_compute in (ch a) in change (ch a) with v
         end.

Ltac digit_value := first [eassumption | apply decimal_value_ascii; lia].

Lemma day_field_cast (D : pystr) (d d' : Z) :
  day_field D d -> d = d' -> day_field D d'.
Proof. now intros H <-. Qed.

Lemma month_field_cast (M : pystr) (m m' : Z) :
  month_field M m -> m = m' -> month_field M m'.
Proof. now intros H <-. Qed.

Lemma year_field_cast (Y : pystr) (y y' : Z) :
  year_field Y y -> y = y' -> year_field Y y'.
Proof. now intros H <-. Qed.

Lemma strptime_sound (s : pystr) (dt : date) :
  strptime s = Ok dt -> reads_as s dt.
Proof.
  unfold strptime, re_match. intros H.
  destruct (rmatch format_regex s 0 [] _) as [[found e]|] eqn:E;
    [|discriminate].
  apply rmatch_sound in E. destruct E as (s1 & s2 & c & -> & M & Hk).
  inversion Hk; subst found e; clear Hk.
  match type of H with
  | context [Nat.eqb ?a ?b] => destruct (Nat.eqb_spec a b) as [Hl|]
  end; cbn [negb] in H; [|discriminate].
  rewrite length_app in Hl. assert (s2 = []) as -> by (destruct s2; [reflexivity|simpl in Hl; lia]).
  clear Hl. rewrite !app_nil_r in *. cbn [negb] in H.
  unfold format_regex, re_d, re_m, re_Y in M. invert_matches.
  all: cbn in H; eval_ch; unfold char in *.
  all: repeat match goal with
         | Hd : char_isdecimal _ = true |- _ =>
             apply isdecimal_value in Hd as [? Hd]
         end.
  all: repeat match type of H with
         | context [int [?a; ?b; ?c; ?d]] =>
             erewrite (int_year a b c d) in H by digit_value
         | context [int [32; ?b]] => rewrite (int_space [b]) in H
         | context [int [?a; ?b]] =>
             erewrite (int_two a b) in H by digit_value
         | context [int [?a]] => erewrite (int_one a) in H by digit_value
         end.
  all: pose proof (date_new_fields _ _ _ _ H) as ->;
    apply date_new_real in H.
  all: eexists _, _, _; split; [reflexivity|]; cbn [app year month day].
  all: split; [|split; [|split; [|exact H]]].
  all: first
         [ eapply year_field_cast; [econstructor; eassumption|lia]
         | eapply month_field_cast; [constructor; lia|lia]
         | eapply day_field_cast; [econstructor; (eassumption || lia)|lia] ].
Qed.


Lemma rmatch_Cat {A} (r1 r2 : regex) s pos caps
      (k : spans -> pystr -> nat -> option A) :
  rmatch (Cat r1 r2) s pos caps k
  = rmatch r1 s pos caps (fun caps' s' pos' => rmatch r2 s' pos' caps' k).
Proof. reflexivity. Qed.

Lemma isdecimal_dot : char_isdecimal 46 = false.
Proof. reflexivity. Qed.

Lemma decimal_not_dot (c : char) (v : Z) :
  decimal_value c = Some v -> c <> 46.
Proof. intros H ->. vm_compute in H. discriminate. Qed.

Ltac decimal_facts :=
  repeat match goal with
         | H : decimal_value ?c = Some _ |- _ =>
             lazymatch goal with
             | _ : c <> 46 |- _ => fail
             | _ => pose proof (decimal_not_dot _ _ H);
                    pose proof (decimal_not_space _ _ H)
             end
         end.

Ltac decide_tests :=
  repeat (cbn [andb orb negb];
          match goal with
          | H : decimal_value ?c = Some _ |- context [char_isdecimal ?c] =>
              rewrite (proj2 (isdecimal_value c) (ex_intro _ _ H))
          | |- context [char_isdecimal 46] => rewrite isdecimal_dot
          | |- context [Z.eqb ?a ?b] => destruct (Z.eqb_spec a b); try lia
          | |- context [Z.leb ?a ?b] => destruct (Z.leb_spec a b); try lia
          end).

(** A day field followed by a dot is read off as group [d], whatever
    comes next. *)
Lemma rmatch_day {A} (D : pystr) (d : Z) (R : regex) rest pos caps
      (k : spans -> pystr -> nat -> option A) :
  day_field D d ->
  rmatch re_d (D ++ 46 :: rest) pos caps
    (fun c s p => rmatch (Cat (Lit (ch ".")) R) s p c k)
  = rmatch R rest (S (pos + List.length D))
      (("d"%string, (pos, pos + List.length D)%nat) :: caps) k.
Proof.
  intros HD. destruct HD; unfold re_d; cbn [rmatch app List.length];
    eval_ch; rewrite ?Nat.add_1_r, ?Nat.add_succ_r, ?Nat.add_0_r;
    decimal_facts; decide_tests;
    repeat match goal with
           | |- context [match ?x with Some _ => _ | None => _ end] =>
               destruct x
           end; reflexivity.
Qed.

Lemma rmatch_month {A} (M : pystr) (m : Z) (R : regex) rest pos caps
      (k : spans -> pystr -> nat -> option A) :
  month_field M m ->
  rmatch re_m (M ++ 46 :: rest) pos caps
    (fun c s p => rmatch (Cat (Lit (ch ".")) R) s p c k)
  = rmatch R rest (S (pos + List.length M))
      (("m"%string, (pos, pos + List.length M)%nat) :: caps) k.
Proof.
  intros HM. destruct HM; unfold re_m; cbn [rmatch app List.length];
    eval_ch; rewrite ?Nat.add_1_r, ?Nat.add_succ_r, ?Nat.add_0_r;
    decimal_facts; decide_tests;
    repeat match goal with
           | |- context [match ?x with Some _ => _ | None => _ end] =>
               destruct x
           end; reflexivity.
Qed.

Lemma rmatch_year {A} (Y : pystr) (y : Z) pos caps
      (k : spans -> pystr -> nat -> option A) :
  year_field Y y ->
  rmatch re_Y Y pos caps k
  = k (("Y"%string, (pos, pos + 4)%nat) :: caps) [] (pos + 4)%nat.
Proof.
  intros HY. destruct HY; unfold re_Y; cbn [rmatch].
  decide_tests. now rewrite !Nat.add_succ_r, Nat.add_0_r.
Qed.


Lemma strptime_complete (s : pystr) (dt : date) :
  reads_as s dt -> strptime s = Ok dt.
Proof.
  destruct dt as [y m d]. unfold reads_as. cbn [year month day].
  intros (D & M & Y & -> & HD & HM & HY & Hreal).
  apply date_new_real in Hreal.
  unfold strptime, re_match, format_regex. cbn [app].
  rewrite rmatch_Cat, (rmatch_day D d _ _ _ _ _ HD).
  rewrite rmatch_Cat, (rmatch_month M m _ _ _ _ _ HM).
  rewrite (rmatch_year Y y _ _ _ HY).
  inversion HD; inversion HM; inversion HY; subst.
  all: match goal with |- _ = Ok ?r => remember r as dt eqn:Edt end;
    cbn; subst dt; unfold char in *.
  all: repeat match goal with
         | |- context [int [?a; ?b; ?c; ?d]] =>
             erewrite (int_year a b c d) by digit_value
         | |- context [int [32; ?b]] => rewrite (int_space [b])
         | |- context [int [?a; ?b]] =>
             erewrite (int_two a b) by digit_value
         | |- context [int [?a]] => erewrite (int_one a) by digit_value
         end.
  all: match goal with
       | |- date_new ?a ?b ?c = Ok (mkdate ?y' ?m' ?d') =>
           replace a with y' by lia; replace b with m' by lia;
           replace c with d' by lia; exact Hreal
       end.
Qed.

(** Parsing succeeds exactly on the strings that read as a date. *)
Lemma strptime_reads_as (s : pystr) (dt : date) :
  strptime s = Ok dt <-> reads_as s dt.
Proof. split; [apply strptime_sound|apply strptime_complete]. Qed.


Lemma strptime_raises (s : pystr) (e : exn) :
  strptime s = Raise e -> e = ValueError None.
Proof.
  unfold strptime, date_new.
  repeat match goal with
         | |- context [match ?x with _ => _ end] => destruct x
         end; congruence.
Qed.

Lemma init_reads (s : pystr) :
  (exists dt, reads_as s dt) -> Birthday.init s = Ok (Birthday.mk s).
Proof.
  intros [dt H]. apply strptime_complete in H.
  unfold Birthday.init. now rewrite H.
Qed.

Lemma init_does_not_read (s : pystr) :
  ~ (exists dt, reads_as s dt) -> Birthday.init s = Raise invalid_date_format.
Proof.
  intros H. unfold Birthday.init.
  destruct (strptime s) as [dt|e] eqn:E.
  - exfalso. apply H. exists dt. now apply strptime_sound.
  - now rewrite (strptime_raises _ _ E).
Qed.

Lemma init_ok_reads (s : pystr) (b : Birthday.t) :
  Birthday.init s = Ok b -> b = Birthday.mk s /\ exists dt, reads_as s dt.
Proof.
  unfold Birthday.init. destruct (strptime s) as [dt|e] eqn:E.
  - intros [= <-]. split; [reflexivity|]. exists dt. now apply strptime_sound.
  - now destruct e.
Qed.

Lemma month_length_le_31 (y m : Z) : month_length y m <= 31.
Proof.
  unfold month_length.
  repeat match goal with
         | |- context [match ?x with _ => _ end] => destruct x
         end; lia.
Qed.

Lemma strict_reads (s : pystr) (y m d : Z) :
  DD_MM_YYYY s y m d -> real_date y m d -> reads_as s (mkdate y m d).
Proof.
  intros (d1 & d2 & m1 & m2 & y1 & y2 & y3 & y4 & Hdig & -> & -> & -> & ->).
  intros (Hy & Hm & Hd).
  repeat match goal with
         | H : Forall _ (_ :: _) |- _ => inversion H; subst; clear H
         | H : Forall _ [] |- _ => clear H
         end.
  unfold ascii_digit in *.
  pose proof (month_length_le_31
                (1000 * (y1 - 48) + 100 * (y2 - 48) + 10 * (y3 - 48) + (y4 - 48))
                (10 * (m1 - 48) + (m2 - 48))) as H31.
  exists [d1; d2], [m1; m2], [y1; y2; y3; y4]. cbn [year month day].
  split; [reflexivity|]. split; [|split; [|split]].
  - assert (d1 = 48 \/ 49 <= d1 <= 50 \/ d1 = 51) as [ -> | [ H | -> ] ] by lia.
    + eapply day_field_cast; [apply day_0x|]; lia.
    + eapply day_field_cast;
        [apply (day_1x_2x d1 d2 (d2 - 48)); [lia|apply decimal_value_ascii; lia]|lia].
    + eapply day_field_cast; [apply day_3x|]; lia.
  - assert (m1 = 48 \/ m1 = 49) as [ -> | -> ] by lia.
    + eapply month_field_cast; [apply month_0x|]; lia.
    + eapply month_field_cast; [apply month_1x|]; lia.
  - constructor; apply decimal_value_ascii; lia.
  - repeat split; lia.
Qed.

Lemma reads_strict (s : pystr) (y m d : Z) (dt : date) :
  DD_MM_YYYY s y m d -> reads_as s dt -> dt = mkdate y m d /\ real_date y m d.
Proof.
  intros (d1 & d2 & m1 & m2 & y1 & y2 & y3 & y4 & Hdig & -> & -> & -> & ->).
  destruct dt as [y m d]. unfold reads_as. cbn [year month day].
  intros (D & M & Y & Hs & HD & HM & HY & Hreal).
  repeat match goal with
         | H : Forall _ (_ :: _) |- _ => inversion H; subst; clear H
         | H : Forall _ [] |- _ => clear H
         end.
  unfold ascii_digit in *.
  inversion HD; inversion HM; inversion HY; subst; cbn [app] in Hs;
    injection Hs as; subst; try lia.
  all: repeat match goal with
         | H : decimal_value ?c = Some ?v |- _ =>
             rewrite decimal_value_ascii in H by lia;
             injection H as H; try subst v
         end.
  all: match goal with
       | Hr : real_date ?a ?b ?c |- _ = mkdate ?a' ?b' ?c' /\ _ =>
           replace a' with a by lia; replace b' with b by lia;
           replace c' with c by lia; split; [reflexivity|exact Hr]
       end.
Qed.

(** C5, as the code has it: validation returns the birthday exactly for
    the strings that read as a date (a day field of one or two characters,
    a dot, a month field of one or two digits, a dot and a four-digit year
    naming a day of the calendar in years 1 to 9999) and raises
    [ValueError "Invalid date format. Use DD.MM.YYYY"] for every other
    string; a string in the format [DD.MM.YYYY] proper is accepted exactly
    when it names such a day; "31.04.2024" and "29.02.2023" are rejected
    and "29.02.2024" is accepted. *)
Theorem birthday_validation_spec :
  (forall s, (exists dt, reads_as s dt) ->
             Birthday.init s = Ok (Birthday.mk s))
  /\ (forall s, ~ (exists dt, reads_as s dt) ->
                Birthday.init s = Raise invalid_date_format)
  /\ (forall s y m d, DD_MM_YYYY s y m d ->
        (Birthday.init s = Ok (Birthday.mk s) <-> real_date y m d))
  /\ Birthday.init (lit "31.04.2024") = Raise invalid_date_format
  /\ Birthday.init (lit "29.02.2024") = Ok (Birthday.mk (lit "29.02.2024"))
  /\ Birthday.init (lit "29.02.2023") = Raise invalid_date_format.
Proof.
  split; [exact init_reads|]. split; [exact init_does_not_read|].
  split; [|repeat split; vm_compute; reflexivity].
  intros s y m d Hs. split.
  - intros H. apply init_ok_reads in H as [_ [dt H]].
    now destruct (reads_strict _ _ _ _ _ Hs H).
  - intros H. apply init_reads. eexists. eapply strict_reads; eassumption.
Qed.


Lemma birthday_validation_spec_witness :
  Birthday.init (lit "12.06.1990") = Ok (Birthday.mk (lit "12.06.1990"))
  <-> real_date 1990 6 12.
Proof.
  apply (proj1 (proj2 (proj2 birthday_validation_spec))).
  exists 49, 50, 48, 54, 49, 57, 57, 48.
  split; [|repeat split; reflexivity].
  repeat constructor; unfold ascii_digit; lia.
Defined.

(** C5 as claimed fails on unpadded fields: "1.6.1990" is accepted, and
    so is " 1.6.1990" with a space before the day, though neither is of
    the form [DD.MM.YYYY]. *)
Lemma birthday_unpadded_counterexample :
  Birthday.init (lit "1.6.1990") = Ok (Birthday.mk (lit "1.6.1990"))
  /\ strptime (lit "1.6.1990") = Ok (mkdate 1990 6 1)
  /\ ~ (exists y m d, DD_MM_YYYY (lit "1.6.1990") y m d)
  /\ Birthday.init (lit " 1.6.1990") = Ok (Birthday.mk (lit " 1.6.1990"))
  /\ ~ (exists y m d, DD_MM_YYYY (lit " 1.6.1990") y m d).
Proof.
  split; [reflexivity|]. split; [reflexivity|].
  split; [|split; [reflexivity|]].
  - intros (y & m & d & d1 & d2 & m1 & m2 & y1 & y2 & y3 & y4 & _ & H & _).
    discriminate H.
  - intros (y & m & d & d1 & d2 & m1 & m2 & y1 & y2 & y3 & y4 & _ & H & _).
    discriminate H.
Qed.

End Parsing.

(** ** The calendar *)
Section Calendar.
Import Py Datetime Strptime Spec.

Lemma days_before_year_succ (y : Z) :
  _days_before_year (y + 1) = _days_before_year y + 365 + b2z (_is_leap y).
Proof.
  unfold _days_before_year, _is_leap, b2z. cbv zeta.
  replace (y + 1 - 1) with y by lia.
  destruct (Z.eqb_spec (y mod 4) 0), (Z.eqb_spec (y mod 100) 0),
    (Z.eqb_spec (y mod 400) 0); cbn [andb orb negb];
    Z.div_mod_to_equations; lia.
Qed.

(** The year reached after [a] 400-year cycles, [b] centuries, [c] 4-year
    cycles and [e] years. *)
Lemma days_before_year_cycles (a b c e : Z) :
  0 <= a -> 0 <= b <= 3 -> 0 <= c <= 24 -> 0 <= e <= 3 ->
  _days_before_year (a * 400 + 1 + (b * 100 + c * 4 + e))
  = 146097 * a + 36524 * b + 1461 * c + 365 * e.
Proof.
  intros. unfold _days_before_year. cbv zeta.
  Z.div_mod_to_equations. lia.
Qed.

Lemma is_leap_cycles (a b c e : Z) :
  0 <= a -> 0 <= b <= 3 -> 0 <= c <= 24 -> 0 <= e <= 3 ->
  _is_leap (a * 400 + 1 + (b * 100 + c * 4 + e))
  = (e =? 3) && (negb (c =? 24) || (b =? 3)).
Proof.
  intros. unfold _is_leap.
  destruct (Z.eqb_spec e 3), (Z.eqb_spec c 24), (Z.eqb_spec b 3);
    cbn [andb orb negb];
    repeat match goal with
           | |- context [Z.eqb ?x ?y] => destruct (Z.eqb_spec x y)
           end; cbn [andb orb negb]; try reflexivity; exfalso;
    Z.div_mod_to_equations; lia.
Qed.


Lemma month_day_checked :
  forallb (fun n => month_day_ok true n && month_day_ok false n) year_days
  = true.
Proof. vm_compute. reflexivity. Qed.

Lemma month_day_spec (leapyear : bool) (n : Z) :
  0 <= n < 365 -> month_day_ok leapyear n = true.
Proof.
  intros Hn. pose proof month_day_checked as H.
  rewrite forallb_forall in H. specialize (H n).
  assert (Hin : In n year_days).
  { unfold year_days. rewrite <- (Z2Nat.id n) by lia.
    apply in_map, in_seq. lia. }
  apply H in Hin. apply andb_true_iff in Hin as [Ht Hf].
  now destruct leapyear.
Qed.

Lemma ord2ymd_unfold (n : Z) :
  _ord2ymd n =
  let n0 := n - 1 in
  let a := n0 / 146097 in
  let b := (n0 mod 146097) / 36524 in
  let c := ((n0 mod 146097) mod 36524) / 1461 in
  let e := (((n0 mod 146097) mod 36524) mod 1461) / 365 in
  let r := (((n0 mod 146097) mod 36524) mod 1461) mod 365 in
  let year := a * 400 + 1 + (b * 100 + c * 4 + e) in
  if (e =? 4) || (b =? 4) then (year - 1, 12, 31)
  else
    let '(m, d) :=
      month_day ((e =? 3) && (negb (c =? 24) || (b =? 3))) r in
    (year, m, d).
Proof.
  unfold _ord2ymd, month_day, _DI400Y, _DI100Y, _DI4Y. cbv zeta.
  destruct (_ || _); [reflexivity|].
  match goal with |- context [if ?t then _ else _] => destruct t end;
    reflexivity.
Qed.

Ltac december :=
  change (item _DAYS_IN_MONTH 12) with 31;
  change (item _DAYS_BEFORE_MONTH 12) with 334;
  change (12 =? 2) with false; change (2 <? 12) with true;
  change (3 =? 3) with true; change (24 =? 24) with true;
  cbn [andb orb negb b2z].

(** [_ord2ymd] returns a date whose ordinal is the one given. *)
Lemma ord2ymd_spec (n : Z) :
  1 <= n ->
  let '(y, m, d) := _ord2ymd n in
  1 <= y /\ 1 <= m <= 12 /\ 1 <= d <= _days_in_month y m
  /\ _ymd2ord y m d = n.
Proof.
  intros Hn. rewrite ord2ymd_unfold. cbv zeta.
  set (n0 := n - 1).
  set (a := n0 / 146097). set (r0 := n0 mod 146097).
  set (b := r0 / 36524). set (r1 := r0 mod 36524).
  set (c := r1 / 1461). set (r2 := r1 mod 1461).
  set (e := r2 / 365). set (r := r2 mod 365).
  assert (H0 : n0 = 146097 * a + r0 /\ 0 <= r0 < 146097 /\ 0 <= a)
    by (subst a r0; Z.div_mod_to_equations; lia).
  assert (H1 : r0 = 36524 * b + r1 /\ 0 <= r1 < 36524 /\ 0 <= b <= 4)
    by (subst b r1; Z.div_mod_to_equations; lia).
  assert (H2 : r1 = 1461 * c + r2 /\ 0 <= r2 < 1461 /\ 0 <= c <= 24)
    by (subst c r2; Z.div_mod_to_equations; lia).
  assert (H3 : r2 = 365 * e + r /\ 0 <= r < 365 /\ 0 <= e <= 4)
    by (subst e r; Z.div_mod_to_equations; lia).
  assert (Hn0 : n0 = n - 1) by reflexivity.
  clearbody n0 a r0 b r1 c r2 e r.
  destruct (Z.eqb_spec e 4) as [He|He]; cbn [orb].
  - (* the last day of a 4-year cycle *)
    assert (Hc : c <= 23) by lia.
    replace (a * 400 + 1 + (b * 100 + c * 4 + e) - 1)
      with (a * 400 + 1 + (b * 100 + c * 4 + 3)) by lia.
    unfold _ymd2ord, _days_before_month, _days_in_month.
    rewrite days_before_year_cycles, is_leap_cycles by lia.
    assert ((c =? 24) = false) as -> by (apply Z.eqb_neq; lia).
    december. lia.
  - destruct (Z.eqb_spec b 4) as [Hb|Hb].
    + (* the last day of a 400-year cycle *)
      replace (a * 400 + 1 + (b * 100 + c * 4 + e) - 1)
        with (a * 400 + 1 + (3 * 100 + 24 * 4 + 3)) by lia.
      unfold _ymd2ord, _days_before_month, _days_in_month.
      rewrite days_before_year_cycles, is_leap_cycles by lia.
      december. lia.
    + pose proof (month_day_spec ((e =? 3) && (negb (c =? 24) || (b =? 3))) r
                    ltac:(lia)) as Hmd.
      unfold month_day_ok in Hmd.
      destruct (month_day _ r) as [m d].
      unfold _ymd2ord, _days_before_month, _days_in_month.
      rewrite days_before_year_cycles, is_leap_cycles by lia.
      set (leap := (e =? 3) && (negb (c =? 24) || (b =? 3))) in *.
      clearbody leap.
      repeat (apply andb_true_iff in Hmd as [Hmd ?]).
      lia.
Qed.


Lemma days_before_year_grows (y k : Z) :
  0 <= k -> _days_before_year y + 365 * k <= _days_before_year (y + k).
Proof.
  intros Hk. revert k Hk. apply natlike_ind.
  - replace (y + 0) with y by lia. lia.
  - intros k Hk IH. replace (y + Z.succ k) with (y + k + 1) by lia.
    rewrite days_before_year_succ. destruct (_is_leap (y + k)); cbn [b2z]; lia.
Qed.

Lemma days_before_year_next (y1 y2 : Z) :
  y1 < y2 ->
  _days_before_year y1 + 365 + b2z (_is_leap y1) <= _days_before_year y2.
Proof.
  intros H. rewrite <- days_before_year_succ.
  pose proof (days_before_year_grows (y1 + 1) (y2 - (y1 + 1)) ltac:(lia)).
  replace (y1 + 1 + (y2 - (y1 + 1))) with y2 in * by lia. lia.
Qed.

(** The two month tables, spelled out. *)
Lemma month_tables (y m : Z) :
  1 <= m <= 12 ->
  let l := b2z (_is_leap y) in
  let dim := _days_in_month y m in
  let dbm := _days_before_month y m in
  (m = 1 /\ dim = 31 /\ dbm = 0) \/ (m = 2 /\ dim = 28 + l /\ dbm = 31)
  \/ (m = 3 /\ dim = 31 /\ dbm = 59 + l) \/ (m = 4 /\ dim = 30 /\ dbm = 90 + l)
  \/ (m = 5 /\ dim = 31 /\ dbm = 120 + l)
  \/ (m = 6 /\ dim = 30 /\ dbm = 151 + l)
  \/ (m = 7 /\ dim = 31 /\ dbm = 181 + l)
  \/ (m = 8 /\ dim = 31 /\ dbm = 212 + l)
  \/ (m = 9 /\ dim = 30 /\ dbm = 243 + l)
  \/ (m = 10 /\ dim = 31 /\ dbm = 273 + l)
  \/ (m = 11 /\ dim = 30 /\ dbm = 304 + l)
  \/ (m = 12 /\ dim = 31 /\ dbm = 334 + l).
Proof.
  intros Hm. cbv zeta. unfold _days_in_month, _days_before_month.
  assert (m = 1 \/ m = 2 \/ m = 3 \/ m = 4 \/ m = 5 \/ m = 6 \/ m = 7
          \/ m = 8 \/ m = 9 \/ m = 10 \/ m = 11 \/ m = 12) as H by lia.
  repeat (destruct H as [->|H]); try subst m;
    destruct (_is_leap y); vm_compute; tauto.
Qed.

Lemma valid_date_ymd (d : date) :
  valid_date d <-> valid_ymd (year d) (month d) (day d).
Proof.
  unfold valid_date, valid_dateb, valid_ymd, MINYEAR, MAXYEAR.
  rewrite !andb_true_iff, !Z.leb_le. tauto.
Qed.

Lemma days_before_year_1 : _days_before_year 1 = 0.
Proof. reflexivity. Qed.

Lemma days_before_year_10000 : _days_before_year 10000 = 3652059.
Proof. reflexivity. Qed.

(** The ordinal of a date lies within its year. *)
Lemma ymd2ord_in_year (y m d : Z) :
  1 <= m <= 12 -> 1 <= d <= _days_in_month y m ->
  _days_before_year y + 1 <= _ymd2ord y m d
  <= _days_before_year y + 365 + b2z (_is_leap y).
Proof.
  intros Hm Hd. unfold _ymd2ord.
  pose proof (month_tables y m Hm) as T. cbv zeta in T.
  destruct (_is_leap y); cbn [b2z] in *; lia.
Qed.

Lemma toordinal_bounds (d : date) :
  valid_date d -> 1 <= toordinal d <= _MAXORDINAL.
Proof.
  intros H. apply valid_date_ymd in H as (Hy & Hm & Hd).
  pose proof (ymd2ord_in_year _ _ _ Hm Hd) as Hb.
  unfold toordinal, _MAXORDINAL.
  pose proof (days_before_year_grows 1 (year d - 1) ltac:(lia)) as Hlo.
  replace (1 + (year d - 1)) with (year d) in Hlo by lia.
  rewrite days_before_year_1 in Hlo.
  pose proof (days_before_year_succ (year d)) as Hs.
  pose proof (days_before_year_grows (year d + 1) (9999 - year d) ltac:(lia))
    as Hhi.
  replace (year d + 1 + (9999 - year d)) with 10000 in Hhi by lia.
  rewrite days_before_year_10000 in Hhi. lia.
Qed.

Lemma date_lt_toordinal (a b : date) :
  valid_date a -> valid_date b -> date_lt a b = true ->
  toordinal a < toordinal b.
Proof.
  intros Ha Hb. apply valid_date_ymd in Ha as (Hya & Hma & Hda).
  apply valid_date_ymd in Hb as (Hyb & Hmb & Hdb).
  unfold date_lt, toordinal. intros H.
  pose proof (ymd2ord_in_year _ _ _ Hma Hda) as Ia.
  pose proof (ymd2ord_in_year _ _ _ Hmb Hdb) as Ib.
  destruct (Z.ltb_spec (year a) (year b)) as [Hy|Hy]; cbn [orb] in H.
  - pose proof (days_before_year_next _ _ Hy). lia.
  - destruct (Z.eqb_spec (year a) (year b)) as [Ey|]; [|discriminate].
    cbn [andb] in H. unfold _ymd2ord. rewrite Ey in *.
    pose proof (month_tables (year b) (month a) Hma) as Ta.
    pose proof (month_tables (year b) (month b) Hmb) as Tb.
    cbv zeta in Ta, Tb.
    destruct (Z.ltb_spec (month a) (month b)) as [Hm|Hm]; cbn [orb] in H.
    + destruct (_is_leap (year b)); cbn [b2z] in *; lia.
    + destruct (Z.eqb_spec (month a) (month b)) as [Em|]; [|discriminate].
      cbn [andb] in H. rewrite Em. apply Z.ltb_lt in H. lia.
Qed.

Lemma date_trichotomy (a b : date) :
  date_lt a b = true \/ a = b \/ date_lt b a = true.
Proof.
  destruct a as [ya ma da], b as [yb mb db]. unfold date_lt.
  cbn [year month day].
  destruct (Z.ltb_spec ya yb), (Z.ltb_spec yb ya), (Z.eqb_spec ya yb),
    (Z.eqb_spec yb ya), (Z.ltb_spec ma mb), (Z.ltb_spec mb ma),
    (Z.eqb_spec ma mb), (Z.eqb_spec mb ma), (Z.ltb_spec da db),
    (Z.ltb_spec db da); cbn [andb orb]; auto; try lia.
  right; left. f_equal; lia.
Qed.

Lemma date_lt_iff (a b : date) :
  valid_date a -> valid_date b ->
  date_lt a b = true <-> toordinal a < toordinal b.
Proof.
  intros Ha Hb. split; [now apply date_lt_toordinal|].
  intros H. destruct (date_trichotomy a b) as [Hl|[->|Hl]]; auto; [lia|].
  apply date_lt_toordinal in Hl; auto. lia.
Qed.

Lemma toordinal_inj (a b : date) :
  valid_date a -> valid_date b -> toordinal a = toordinal b -> a = b.
Proof.
  intros Ha Hb H. destruct (date_trichotomy a b) as [Hl|[->|Hl]]; auto;
    apply date_lt_toordinal in Hl; auto; lia.
Qed.

Lemma date_new_valid (y m d : Z) :
  valid_ymd y m d -> date_new y m d = Ok (mkdate y m d).
Proof.
  unfold valid_ymd, date_new, MINYEAR, MAXYEAR. intros (Hy & Hm & Hd).
  repeat match goal with
         | |- context [Z.leb ?a ?b] => destruct (Z.leb_spec a b); try lia
         end. reflexivity.
Qed.

(** Converting an ordinal back gives the date it came from. *)
Lemma fromordinal_toordinal (d : date) :
  valid_date d -> fromordinal (toordinal d) = Ok d.
Proof.
  intros Hd. pose proof (toordinal_bounds d Hd) as Hb.
  pose proof (ord2ymd_spec (toordinal d) ltac:(lia)) as Hs.
  unfold fromordinal. destruct (_ord2ymd (toordinal d)) as [[y m] d'].
  destruct Hs as (Hy & Hm & Hd' & Ho).
  assert (Hy' : y <= 9999).
  { destruct (Z.le_gt_cases y 9999) as [|Hgt]; [assumption|exfalso].
    pose proof (ymd2ord_in_year y m d' Hm Hd') as Hi.
    pose proof (days_before_year_grows 10000 (y - 10000) ltac:(lia)) as Hg.
    replace (10000 + (y - 10000)) with y in Hg by lia.
    rewrite days_before_year_10000 in Hg. unfold _MAXORDINAL in Hb. lia. }
  assert (Hv : valid_ymd y m d') by (unfold valid_ymd; lia).
  rewrite (date_new_valid _ _ _ Hv). f_equal.
  apply toordinal_inj; [now apply valid_date_ymd|assumption|exact Ho].
Qed.


Lemma calendar_day_valid (d : date) : calendar_day d = valid_dateb d.
Proof.
  unfold calendar_day, valid_dateb, MINYEAR, MAXYEAR.
  destruct (Z.leb_spec 1 (month d)), (Z.leb_spec (month d) 12);
    rewrite ?andb_false_r; cbn [andb]; try reflexivity.
  now rewrite month_length_days_in_month by lia.
Qed.

(** The day after a date is one day later, up to the last date. *)
Lemma next_day_spec (d : date) :
  valid_date d -> toordinal d < _MAXORDINAL ->
  valid_date (next_day d) /\ toordinal (next_day d) = toordinal d + 1.
Proof.
  intros Hv Hlt. pose proof Hv as Hv'.
  apply valid_date_ymd in Hv as (Hy & Hm & Hd).
  destruct d as [y m d]; cbn [year month day] in *.
  unfold next_day; cbn [year month day].
  rewrite month_length_days_in_month by lia.
  pose proof (month_tables y m Hm) as T. cbv zeta in T.
  unfold toordinal, _ymd2ord in *; cbn [year month day] in *.
  destruct (Z.ltb_spec d (_days_in_month y m)).
  - split; [apply valid_date_ymd; unfold valid_ymd|]; cbn [year month day]; lia.
  - destruct (Z.ltb_spec m 12).
    + pose proof (month_tables y (m + 1) ltac:(lia)) as T'. cbv zeta in T'.
      split; [apply valid_date_ymd; unfold valid_ymd|]; cbn [year month day];
        destruct (_is_leap y); cbn [b2z] in *; lia.
    + assert (m = 12) as -> by lia.
      pose proof (month_tables (y + 1) 1 ltac:(lia)) as T'. cbv zeta in T'.
      pose proof (days_before_year_succ y) as Hs.
      assert (y <> 9999).
      { intros ->. unfold _MAXORDINAL in Hlt.
        change (_days_before_year 9999) with 3651694 in *.
        change (_is_leap 9999) with false in *. cbn [b2z] in *. lia. }
      split; [apply valid_date_ymd; unfold valid_ymd|]; cbn [year month day];
        destruct (_is_leap y); cbn [b2z] in *; lia.
Qed.

Lemma add_days_1 (d : date) :
  valid_date d -> toordinal d + 1 <= _MAXORDINAL ->
  add_days d 1 = Ok (next_day d).
Proof.
  intros Hv Hlt. destruct (next_day_spec d Hv ltac:(lia)) as [Hv' Ho].
  pose proof (toordinal_bounds d Hv). unfold add_days.
  destruct (Z.ltb_spec 0 (toordinal d + 1)); [|lia].
  destruct (Z.leb_spec (toordinal d + 1) _MAXORDINAL); [|lia].
  cbn [andb]. rewrite <- Ho. now apply fromordinal_toordinal.
Qed.

Lemma add_days_2 (d : date) :
  valid_date d -> toordinal d + 2 <= _MAXORDINAL ->
  add_days d 2 = Ok (next_day (next_day d)).
Proof.
  intros Hv Hlt. destruct (next_day_spec d Hv ltac:(lia)) as [Hv' Ho].
  destruct (next_day_spec (next_day d) Hv' ltac:(lia)) as [Hv'' Ho'].
  pose proof (toordinal_bounds d Hv). unfold add_days.
  destruct (Z.ltb_spec 0 (toordinal d + 2)); [|lia].
  destruct (Z.leb_spec (toordinal d + 2) _MAXORDINAL); [|lia].
  cbn [andb]. replace (toordinal d + 2) with (toordinal (next_day (next_day d)))
    by lia.
  now apply fromordinal_toordinal.
Qed.

(** The last date, 31.12.9999, is a Friday: a weekend day has the days of
    its shift after it. *)
Lemma weekend_room (d : date) :
  valid_date d ->
  (weekday d = 5 -> toordinal d + 2 <= _MAXORDINAL)
  /\ (weekday d = 6 -> toordinal d + 1 <= _MAXORDINAL).
Proof.
  intros Hv. pose proof (toordinal_bounds d Hv) as Hb.
  unfold weekday, _MAXORDINAL in *.
  split; intros H; Z.div_mod_to_equations; lia.
Qed.

(** The congratulation date: a valid date, zero to two days on, never a
    Saturday or a Sunday. *)
Lemma congratulation_spec (occ : date) :
  valid_date occ ->
  valid_date (congratulation occ)
  /\ toordinal (congratulation occ)
     = toordinal occ
       + (if weekday occ =? 5 then 2 else if weekday occ =? 6 then 1 else 0)
  /\ 0 <= weekday (congratulation occ) <= 4.
Proof.
  intros Hv. destruct (weekend_room occ Hv) as [H5 H6].
  unfold congratulation.
  destruct (Z.eqb_spec (weekday occ) 5) as [E5|N5].
  - specialize (H5 E5).
    destruct (next_day_spec occ Hv ltac:(lia)) as [Hv' Ho].
    destruct (next_day_spec (next_day occ) Hv' ltac:(lia)) as [Hv'' Ho'].
    split; [assumption|]. split; [lia|].
    unfold weekday in *. rewrite Ho', Ho. Z.div_mod_to_equations; lia.
  - destruct (Z.eqb_spec (weekday occ) 6) as [E6|N6].
    + specialize (H6 E6).
      destruct (next_day_spec occ Hv ltac:(lia)) as [Hv' Ho].
      split; [assumption|]. split; [lia|].
      unfold weekday in *. rewrite Ho. Z.div_mod_to_equations; lia.
    + split; [assumption|]. split; [lia|].
      unfold weekday in *. Z.div_mod_to_equations; lia.
Qed.


Lemma date_new_total (y m d : Z) :
  date_new y m d
  = if valid_dateb (mkdate y m d) then Ok (mkdate y m d)
    else Raise (ValueError None).
Proof.
  unfold date_new, valid_dateb; cbn [year month day].
  repeat match goal with
         | |- context [Z.leb ?a ?b] => destruct (Z.leb_spec a b)
         end; reflexivity.
Qed.

Lemma strptime_valid (s : pystr) (bd : date) :
  strptime s = Ok bd -> valid_date bd.
Proof.
  intros H. apply strptime_sound in H as (_ & _ & _ & _ & _ & _ & _ & H).
  apply date_new_real in H. rewrite date_new_total in H.
  unfold valid_date. destruct bd; cbn [year month day] in *.
  now destruct (valid_dateb _).
Qed.

(** When there is a next occurrence it is a date with the birthday's
    month and day, in today's year or the next, and not before today. *)
Lemma occurrence_spec (today bd occ : date) :
  valid_date today -> occurrence today bd = Some occ ->
  valid_date occ /\ month occ = month bd /\ day occ = day bd
  /\ (year occ = year today \/ year occ = year today + 1)
  /\ 0 <= days_between today occ.
Proof.
  intros Ht. unfold occurrence. cbv zeta. rewrite !calendar_day_valid.
  destruct (valid_dateb (mkdate (year today) _ _)) eqn:V1; [|discriminate].
  unfold days_between.
  destruct (Z.ltb_spec (toordinal (mkdate (year today) (month bd) (day bd))
                        - toordinal today) 0) as [Hp|Hp].
  - destruct (valid_dateb (mkdate (year today + 1) _ _)) eqn:V2;
      [|discriminate].
    intros [= <-]. cbn [year month day]. repeat split; auto.
    assert (Hlt : date_lt today (mkdate (year today + 1) (month bd) (day bd))
                  = true).
    { unfold date_lt; cbn [year month day].
      destruct (Z.ltb_spec (year today) (year today + 1)); [reflexivity|lia]. }
    apply date_lt_toordinal in Hlt; auto. lia.
  - intros [= <-]. cbn [year month day]. repeat split; auto.
Qed.

(** One turn of the loop: the record's contribution is appended, or
    [ValueError] is raised when the birthday has no next occurrence. *)
Lemma visit_spec (today : date) (r : Record.t) (acc : list AddressBook.entry) :
  valid_date today ->
  AddressBook.visit today r acc
  = if resolvable today r then Ok (acc ++ contribution today r)
    else Raise (ValueError None).
Proof.
  intros Ht. unfold AddressBook.visit, resolvable, contribution, birthday_date.
  destruct (Record.birthday r) as [b|]; [|now rewrite app_nil_r].
  destruct (strptime (Birthday.value b)) as [bd|e] eqn:Eb;
    [|now rewrite (strptime_raises _ _ Eb)].
  unfold occurrence, replace_year. cbv zeta. rewrite !calendar_day_valid.
  rewrite date_new_total.
  destruct (valid_dateb (mkdate (year today) _ _)) eqn:V1; [|reflexivity].
  set (this := mkdate (year today) (month bd) (day bd)) in *.
  assert (Hlt : date_lt this today = (days_between today this <? 0)).
  { unfold days_between.
    destruct (Z.ltb_spec (toordinal this - toordinal today) 0) as [H|H].
    - apply date_lt_iff; auto. lia.
    - apply not_true_is_false. intros Hc.
      apply date_lt_toordinal in Hc; auto. lia. }
  rewrite Hlt. cbn [year month day].
  assert (Hfin : forall occ, valid_date occ ->
    (if (0 <=? sub_days occ today) && (sub_days occ today <=? 7)
     then
       match (if weekday occ =? 5 then add_days occ 2
              else if weekday occ =? 6 then add_days occ 1 else Ok occ) with
       | Ok congratulation_date =>
           Ok (acc ++ [AddressBook.mk_entry (Record.name r)
                         (strftime congratulation_date)])
       | Raise e => Raise e
       end
     else Ok acc)
    = Ok (acc ++ (if in_window today occ
                  then [AddressBook.mk_entry (Record.name r)
                          (strftime (congratulation occ))]
                  else []))).
  { intros occ Hv. unfold in_window, days_between, sub_days.
    destruct (_ && _); [|now rewrite app_nil_r].
    destruct (weekend_room occ Hv) as [H5 H6]. unfold congratulation.
    destruct (Z.eqb_spec (weekday occ) 5) as [E5|N5].
    - now rewrite (add_days_2 occ Hv (H5 E5)).
    - destruct (Z.eqb_spec (weekday occ) 6) as [E6|N6]; [|reflexivity].
      now rewrite (add_days_1 occ Hv (H6 E6)). }
  destruct (days_between today this <? 0).
  - rewrite date_new_total.
    destruct (valid_dateb (mkdate (year today + 1) _ _)) eqn:V2;
      [|reflexivity].
    now apply Hfin.
  - now apply Hfin.
Qed.

Lemma loop_spec (today : date) (records : list Record.t) :
  valid_date today ->
  forall acc,
    AddressBook.loop today records acc
    = if forallb (resolvable today) records
      then Ok (acc ++ flat_map (contribution today) records)
      else Raise (ValueError None).
Proof.
  intros Ht. induction records as [|r records IH]; intros acc;
    cbn [AddressBook.loop forallb flat_map].
  - now rewrite app_nil_r.
  - rewrite visit_spec by assumption.
    destruct (resolvable today r); cbn [andb]; [|reflexivity].
    rewrite IH. now rewrite app_assoc.
Qed.

(** The query in closed form: the contributions of the records, in
    order, or [ValueError] as soon as a birthday has no next occurrence. *)
Lemma query_closed_form (book : AddressBook.t) (today : date) :
  valid_date today ->
  AddressBook.get_upcoming_birthdays book today
  = if forallb (resolvable today) (dict_values book)
    then Ok (flat_map (contribution today) (dict_values book))
    else Raise (ValueError None).
Proof.
  intros Ht. unfold AddressBook.get_upcoming_birthdays.
  now rewrite loop_spec.
Qed.

(** Every birthday other than 29 February has a next occurrence, as long
    as today is before the last year of the calendar. *)
Lemma resolvable_ordinary (today : date) (r : Record.t) (bd : date) :
  valid_date today -> year today < 9999 ->
  birthday_date r = Some bd -> ~ (month bd = 2 /\ day bd = 29) ->
  resolvable today r = true.
Proof.
  intros Ht Hy Hb Hn. unfold resolvable. rewrite Hb.
  assert (Hbd : valid_date bd).
  { unfold birthday_date in Hb. destruct (Record.birthday r); [|discriminate].
    destruct (strptime _) eqn:E; [|discriminate].
    injection Hb as <-. eapply strptime_valid; eassumption. }
  apply valid_date_ymd in Ht as (Hty & _ & _).
  apply valid_date_ymd in Hbd as (_ & Hm & Hd).
  assert (Hv : forall y, 1 <= y <= 9999 ->
                         calendar_day (mkdate y (month bd) (day bd)) = true).
  { intros y Hyr. rewrite calendar_day_valid. apply valid_date_ymd.
    unfold valid_ymd; cbn [year month day].
    pose proof (month_tables (year bd) (month bd) Hm) as T.
    pose proof (month_tables y (month bd) Hm) as T'. cbv zeta in T, T'.
    destruct (_is_leap (year bd)), (_is_leap y); cbn [b2z] in *; lia. }
  unfold occurrence. cbv zeta. rewrite !Hv by lia.
  destruct (Record.birthday r); [|reflexivity].
  now destruct (_ <? _).
Qed.

End Calendar.

(** ** Upcoming birthdays *)
Section Upcoming.
Import Py Datetime Strptime Spec Samples AddressBook.

(** A birthday stored by [add_birthday] is one that parses to a date. *)
Lemma add_birthday_parses (value : pystr) (r r' : Record.t) :
  Record.add_birthday value r = (Ok tt, r') ->
  Record.name r' = Record.name r /\ Record.phones r' = Record.phones r
  /\ exists bd, strptime value = Ok bd /\ birthday_date r' = Some bd.
Proof.
  unfold Record.add_birthday, Record.bind, Record.lift, Record.set_birthday,
    Birthday.init.
  destruct (strptime value) as [bd|e] eqn:E.
  - intros [= <-]. repeat split. exists bd. split; [reflexivity|].
    unfold birthday_date; cbn. now rewrite E.
  - destruct e; discriminate.
Qed.

(** The query on a book whose birthdays all resolve: when every birthday
    has a next occurrence (its month and day exist in today's year and,
    once passed, in the following year), the query returns, in the order
    of the book,
    exactly the records whose next occurrence is 0 to 7 days from today,
    each with its congratulation date: the occurrence, moved on 2 days from
    a Saturday and 1 day from a Sunday.  Every birthday but 29 February has
    a next occurrence while today is before year 9999; the occurrence is
    never before today and the congratulation date is never on a weekend.
    With today 10.06.2024, birthdays 12.06.1990 and 15.06.1990 give
    12.06.2024 and 17.06.2024. *)
Theorem upcoming_birthdays_spec :
  (forall (book : AddressBook.t) (today : date),
      valid_date today ->
      forallb (resolvable today) (dict_values book) = true ->
      get_upcoming_birthdays book today
      = Ok (flat_map (contribution today) (dict_values book)))
  /\ (forall (today : date) (r : Record.t) (bd occ : date),
         valid_date today ->
         birthday_date r = Some bd -> occurrence today bd = Some occ ->
         (0 <= days_between today occ <= 7
          /\ contribution today r
             = [mk_entry (Record.name r) (strftime (congratulation occ))])
         \/ (7 < days_between today occ /\ contribution today r = []))
  /\ (forall (today : date) (r : Record.t) (bd : date),
         valid_date today -> year today < 9999 ->
         birthday_date r = Some bd -> ~ (month bd = 2 /\ day bd = 29) ->
         resolvable today r = true)
  /\ (forall (today bd occ : date),
         valid_date today -> occurrence today bd = Some occ ->
         toordinal (congratulation occ)
         = toordinal occ
           + (if weekday occ =? 5 then 2 else if weekday occ =? 6 then 1 else 0)
         /\ 0 <= weekday (congratulation occ) <= 4)
  /\ get_upcoming_birthdays june_book (mkdate 2024 6 10)
     = Ok [mk_entry (lit "Ann") (lit "12.06.2024");
           mk_entry (lit "Bob") (lit "17.06.2024")].
Proof.
  split; [|split; [|split; [exact resolvable_ordinary|split]]].
  - intros book today Ht Hr. rewrite query_closed_form by assumption.
    now rewrite Hr.
  - intros today r bd occ Ht Hb Ho.
    destruct (occurrence_spec _ _ _ Ht Ho) as (_ & _ & _ & _ & Hd).
    unfold contribution. rewrite Hb, Ho. unfold in_window.
    destruct (Z.leb_spec 0 (days_between today occ)); [|lia].
    destruct (Z.leb_spec (days_between today occ) 7); cbn [andb];
      [left|right]; split; auto; lia.
  - intros today bd occ Ht Ho.
    destruct (occurrence_spec _ _ _ Ht Ho) as (Hv & _).
    now destruct (congratulation_spec occ Hv) as (_ & H1 & H2).
  - vm_compute. reflexivity.
Qed.

Lemma upcoming_birthdays_spec_witness :
  get_upcoming_birthdays june_book (mkdate 2024 6 10)
  = Ok (flat_map (contribution (mkdate 2024 6 10)) (dict_values june_book)).
Proof.
  apply (proj1 upcoming_birthdays_spec june_book (mkdate 2024 6 10)).
  - reflexivity.
  - vm_compute. reflexivity.
Defined.

(** C1 fails on the code: a record whose next occurrence is 0 to 7 days
    from today should be reported with its congratulation date, but when
    the book also holds a birthday on 29 February and today's year is not
    a leap year, the loop raises [ValueError] at that birthday and the
    query reports no one. *)
Theorem in_window_unreported
        (book : AddressBook.t) (today : date)
        (leap : Record.t) (b : Birthday.t) (bd : date)
        (r : Record.t) (rd occ : date) :
  valid_date today -> _is_leap (year today) = false ->
  In leap (dict_values book) -> Record.birthday leap = Some b ->
  strptime (Birthday.value b) = Ok bd -> month bd = 2 -> day bd = 29 ->
  In r (dict_values book) -> birthday_date r = Some rd ->
  occurrence today rd = Some occ -> 0 <= days_between today occ <= 7 ->
  contribution today r
  = [mk_entry (Record.name r) (strftime (congratulation occ))]
  /\ get_upcoming_birthdays book today = Raise (ValueError None).
Proof.
  intros Ht Hleap Hin Hb Hp Hm Hd Hr Hrd Ho Hw. split.
  - unfold contribution. rewrite Hrd, Ho. unfold in_window.
    destruct (Z.leb_spec 0 (days_between today occ)); [|lia].
    destruct (Z.leb_spec (days_between today occ) 7); [|lia].
    reflexivity.
  - rewrite query_closed_form by assumption.
    assert (Hu : resolvable today leap = false).
    { unfold resolvable, birthday_date. rewrite Hb, Hp.
      unfold occurrence. cbv zeta. unfold calendar_day at 1.
      cbn [year month day]. rewrite Hm, Hd. unfold month_length.
      rewrite leap_year_is_leap, Hleap.
      now rewrite !andb_false_r. }
    destruct (forallb (resolvable today) (dict_values book)) eqn:E;
      [|reflexivity].
    rewrite forallb_forall in E. rewrite (E leap Hin) in Hu. discriminate.
Qed.

Lemma in_window_unreported_witness :
  contribution (mkdate 2023 6 10) (with_birthday "Ann" "12.06.1990")
  = [mk_entry (lit "Ann") (lit "12.06.2023")]
  /\ get_upcoming_birthdays leap_book (mkdate 2023 6 10)
     = Raise (ValueError None).
Proof.
  apply (in_window_unreported leap_book (mkdate 2023 6 10)
           (with_birthday "Leo" "29.02.2000")
           (Birthday.mk (lit "29.02.2000")) (mkdate 2000 2 29)
           (with_birthday "Ann" "12.06.1990")
           (mkdate 1990 6 12) (mkdate 2023 6 12)).
  - reflexivity.
  - reflexivity.
  - right; now left.
  - reflexivity.
  - vm_compute. reflexivity.
  - reflexivity.
  - reflexivity.
  - now left.
  - vm_compute. reflexivity.
  - vm_compute. reflexivity.
  - vm_compute. split; discriminate.
Defined.

(** C7 fails on the code: whenever the book holds a birthday on 29
    February and today's year is not a leap year, the query raises
    [ValueError] instead of resolving the occurrence. *)
Theorem leap_day_birthday_raises
        (book : AddressBook.t) (today : date) (r : Record.t)
        (b : Birthday.t) (bd : date) :
  valid_date today -> _is_leap (year today) = false ->
  In r (dict_values book) -> Record.birthday r = Some b ->
  strptime (Birthday.value b) = Ok bd -> month bd = 2 -> day bd = 29 ->
  get_upcoming_birthdays book today = Raise (ValueError None).
Proof.
  intros Ht Hleap Hin Hb Hp Hm Hd.
  rewrite query_closed_form by assumption.
  assert (Hr : resolvable today r = false).
  { unfold resolvable, birthday_date. rewrite Hb, Hp.
    unfold occurrence. cbv zeta. unfold calendar_day at 1.
    cbn [year month day]. rewrite Hm, Hd. unfold month_length.
    rewrite leap_year_is_leap, Hleap.
    now rewrite !andb_false_r. }
  destruct (forallb (resolvable today) (dict_values book)) eqn:E;
    [|reflexivity].
  rewrite forallb_forall in E. rewrite (E r Hin) in Hr. discriminate.
Qed.

Lemma leap_day_birthday_raises_witness :
  get_upcoming_birthdays leap_book (mkdate 2023 6 10) = Raise (ValueError None).
Proof.
  apply (leap_day_birthday_raises leap_book (mkdate 2023 6 10)
           (with_birthday "Leo" "29.02.2000")
           (Birthday.mk (lit "29.02.2000")) (mkdate 2000 2 29));
    try reflexivity.
  right; left; reflexivity.
Defined.

End Upcoming.

(** ** Names and records *)
Section RecordLife.
Import Py PyStr Record Spec Samples Inv.

Lemma lstrip_nil_iff (s : pystr) : lstrip s = [] <-> forallb isspace s = true.
Proof.
  induction s as [|c s IH]; cbn [lstrip forallb]; [tauto|].
  destruct (isspace c); cbn [andb]; [exact IH|]. split; discriminate.
Qed.

Lemma lstrip_suffix (s : pystr) : exists p, s = p ++ lstrip s.
Proof.
  induction s as [|c s [p IH]]; cbn [lstrip]; [now exists []|].
  destruct (isspace c); [|now exists []].
  exists (c :: p). cbn. now rewrite <- IH.
Qed.

(** Stripping leaves nothing exactly when every character is whitespace. *)
Lemma strip_nil_iff (s : pystr) : strip s = [] <-> forallb isspace s = true.
Proof.
  unfold strip. split.
  - intros H. apply (f_equal (@rev _)) in H. rewrite rev_involutive in H.
    cbn in H. apply lstrip_nil_iff in H. rewrite forallb_forall in H.
    rewrite forallb_forall. intros c Hc.
    destruct (lstrip_suffix s) as [p Hp].
    destruct (isspace c) eqn:E; [reflexivity|].
    assert (Hin : In c (lstrip s)).
    { destruct (lstrip s) as [|x t] eqn:El.
      - apply lstrip_nil_iff in El. rewrite forallb_forall in El.
        rewrite (El c Hc) in E. discriminate.
      - rewrite <- El.
        clear - Hc E. induction s as [|y s IH]; [destruct Hc|].
        cbn [lstrip]. destruct (isspace y) eqn:Ey.
        + destruct Hc as [->|Hc]; [congruence|auto].
        + exact Hc. }
    apply (proj1 (in_rev _ _)) in Hin. apply H in Hin. congruence.
  - intros H. apply lstrip_nil_iff in H. now rewrite H.
Qed.


Lemma record_init_cases (name : pystr) :
  Record.init name
  = if forallb isspace name
    then Raise (ValueError (Some "Name cannot be empty"%string))
    else Ok (Record.mk name [] None).
Proof.
  unfold Record.init, Name.init.
  destruct (forallb isspace name) eqn:E.
  - apply strip_nil_iff in E. now rewrite E.
  - destruct (strip name) eqn:Es; [|reflexivity].
    apply strip_nil_iff in Es. congruence.
Qed.

(** [Record(name)] accepts exactly the names with a character that is not
    whitespace; it keeps the name as given, unstripped, and starts with no
    phones and no birthday. *)
Theorem record_init_outcome (name : pystr) :
  (forallb isspace name = true ->
   Record.init name
   = Raise (ValueError (Some "Name cannot be empty"%string)))
  /\ ((exists c, In c name /\ isspace c = false) ->
      Record.init name = Ok (Record.mk name [] None)).
Proof.
  rewrite record_init_cases. split.
  - now intros ->.
  - intros (c & Hin & Hc). destruct (forallb isspace name) eqn:E; auto.
    rewrite forallb_forall in E. rewrite (E c Hin) in Hc. discriminate.
Qed.

Lemma record_init_outcome_witness :
  Record.init (lit " Ann ") = Ok (Record.mk (lit " Ann ") [] None).
Proof.
  apply (proj2 (record_init_outcome (lit " Ann "))).
  exists 65. split; [right; now left|reflexivity].
Defined.

Lemma add_phone_cases (r : Record.t) (v : pystr) :
  add_phone v r
  = if Phone.phone_validation v
    then (Ok tt, Record.mk (name r) (phones r ++ [Phone.mk v]) (birthday r))
    else (Raise (ValueError (Some "Invalid phone number"%string)), r).
Proof.
  unfold add_phone, bind, lift, get_phones, set_phones, Phone.init.
  now destruct (Phone.phone_validation v).
Qed.

Lemma remove_phone_cases (r : Record.t) (v : pystr) :
  remove_phone v r
  = match find (has_value v) (phones r) with
    | Some _ =>
        (Ok tt, Record.mk (name r) (remove_first v (phones r)) (birthday r))
    | None => (Raise (ValueError None), r)
    end.
Proof.
  unfold remove_phone, find_phone, bind, lift, get_phones, set_phones, ret.
  cbn beta iota. fold (has_value v).
  destruct (find (has_value v) (phones r)) as [p|] eqn:E.
  - now rewrite (list_remove_found v _ p E).
  - now rewrite list_remove_None.
Qed.

Lemma find_phone_cases (r : Record.t) (v : pystr) :
  find_phone v r = (Ok (find (has_value v) (phones r)), r).
Proof. reflexivity. Qed.

Lemma find_app_absent (v : pystr) (l l' : list Phone.t) :
  find (has_value v) l = None ->
  find (has_value v) (l ++ l') = find (has_value v) l'.
Proof.
  induction l as [|q l IH]; cbn [find app]; [reflexivity|].
  destruct (has_value v q); [discriminate|exact IH].
Qed.

(** A phone that was added is found, and looking up any other value
    gives what it gave before. *)
Theorem add_phone_then_find_phone (r : Record.t) (v : pystr) :
  Phone.phone_validation v = true ->
  exists r',
    add_phone v r = (Ok tt, r')
    /\ (exists p, find_phone v r' = (Ok (Some p), r') /\ Phone.value p = v)
    /\ (forall w, w <> v -> fst (find_phone w r') = fst (find_phone w r)).
Proof.
  intros Hv. rewrite add_phone_cases, Hv. eexists; split; [reflexivity|].
  split.
  - rewrite find_phone_cases; cbn [phones].
    destruct (find (has_value v) (phones r ++ [Phone.mk v])) as [p|] eqn:E.
    + exists p. split; [reflexivity|].
      apply find_some in E as [_ E]. now apply has_value_eq in E.
    + exfalso.
      assert (Hf : has_value v (Phone.mk v) = false)
        by (apply (find_none _ _ E); apply in_or_app; right; now left).
      unfold has_value in Hf; cbn in Hf. rewrite str_eqb_refl in Hf.
      discriminate.
  - intros w Hw. rewrite !find_phone_cases; cbn [fst phones]. f_equal.
    destruct (find (has_value w) (phones r)) as [p|] eqn:E.
    + now apply find_app_present.
    + rewrite (find_app_absent _ _ _ E). cbn [find].
      assert (has_value w (Phone.mk v) = false) as ->; [|reflexivity].
      apply str_eqb_neq. cbn. congruence.
Qed.

Lemma add_phone_then_find_phone_witness :
  exists r',
    add_phone (lit "0987654321") sample_record = (Ok tt, r')
    /\ (exists p, find_phone (lit "0987654321") r' = (Ok (Some p), r')
                  /\ Phone.value p = lit "0987654321")
    /\ (forall w, w <> lit "0987654321" ->
                  fst (find_phone w r') = fst (find_phone w sample_record)).
Proof.
  apply (add_phone_then_find_phone sample_record (lit "0987654321")).
  reflexivity.
Defined.

(** Removing a phone that is there takes out its first entry and nothing
    else. *)
Theorem remove_phone_first (r : Record.t) (v : pystr) :
  (exists p, In p (phones r) /\ Phone.value p = v) ->
  exists l1 p l2,
    phones r = l1 ++ p :: l2
    /\ Phone.value p = v
    /\ Forall (fun q => Phone.value q <> v) l1
    /\ remove_phone v r
       = (Ok tt, Record.mk (name r) (l1 ++ l2) (birthday r)).
Proof.
  intros Hin. destruct (first_split _ _ Hin) as (l1 & p & l2 & Hl & Hp & Hl1).
  exists l1, p, l2. repeat split; auto.
  rewrite remove_phone_cases. destruct (find_present _ _ Hin) as (q & -> & _).
  now rewrite Hl, (remove_first_split v l1 l2 p Hl1 Hp).
Qed.

Lemma remove_phone_first_witness :
  exists l1 p l2,
    phones twice_record = l1 ++ p :: l2
    /\ Phone.value p = lit "1234567890"
    /\ Forall (fun q => Phone.value q <> lit "1234567890") l1
    /\ remove_phone (lit "1234567890") twice_record
       = (Ok tt, Record.mk (name twice_record) (l1 ++ l2)
                   (birthday twice_record)).
Proof.
  apply (remove_phone_first twice_record (lit "1234567890")).
  exists (Phone.mk (lit "1234567890")). split; [now left|reflexivity].
Defined.

Lemma remove_first_last (v : pystr) (l : list Phone.t) :
  find (has_value v) l = None -> remove_first v (l ++ [Phone.mk v]) = l.
Proof.
  induction l as [|q l IH]; cbn [find app remove_first].
  - intros _. unfold has_value; cbn. now rewrite str_eqb_refl.
  - destruct (has_value v q); [discriminate|]. intros H. now rewrite IH.
Qed.

(** Adding a phone the record did not have and removing it again gives
    back the record as it was. *)
Theorem add_then_remove_phone (r : Record.t) (v : pystr) :
  Phone.phone_validation v = true ->
  (forall p, In p (phones r) -> Phone.value p <> v) ->
  bind (add_phone v) (fun _ => remove_phone v) r = (Ok tt, r).
Proof.
  intros Hv Habs. apply find_absent in Habs.
  unfold bind. rewrite add_phone_cases, Hv, remove_phone_cases. cbn [phones].
  rewrite (find_app_absent _ _ _ Habs). cbn [find].
  assert (has_value v (Phone.mk v) = true) as -> by apply str_eqb_refl.
  rewrite (remove_first_last _ _ Habs). now destruct r.
Qed.

Lemma add_then_remove_phone_witness :
  bind (add_phone (lit "0987654321"))
       (fun _ => remove_phone (lit "0987654321")) sample_record
  = (Ok tt, sample_record).
Proof.
  apply (add_then_remove_phone sample_record (lit "0987654321")).
  - reflexivity.
  - intros p [<-|[]]; simpl; discriminate.
Defined.

Lemma record_add_birthday_cases (r : Record.t) (value : pystr) :
  add_birthday value r
  = match Strptime.strptime value with
    | Ok _ =>
        (Ok tt, Record.mk (name r) (phones r) (Some (Birthday.mk value)))
    | Raise _ => (Raise invalid_date_format, r)
    end.
Proof.
  unfold add_birthday, bind, lift, set_birthday, Birthday.init.
  destruct (Strptime.strptime value) as [d|e] eqn:E; [reflexivity|].
  now rewrite (strptime_raises _ _ E).
Qed.

Lemma remove_first_Forall (P : Phone.t -> Prop) (v : pystr) (l : list Phone.t) :
  Forall P l -> Forall P (remove_first v l).
Proof.
  induction 1 as [|q l Hq Hl IH]; cbn [remove_first]; [constructor|].
  destruct (has_value v q); [assumption|now constructor].
Qed.

(** Every method keeps the record's name and keeps the record valid:
    the phone list only ever holds validated phones and the birthday is
    one that parses. *)
Theorem methods_keep_valid (r : Record.t) (v w : pystr) :
  valid_record r ->
  let ok (out : result unit * Record.t) :=
    valid_record (snd out) /\ name (snd out) = name r in
  ok (add_phone v r) /\ ok (remove_phone v r) /\ ok (edit_phone v w r)
  /\ ok (add_birthday v r).
Proof.
  intros Hr. pose proof Hr as [Hp Hb]. cbv zeta.
  split; [|split; [|split]].
  - rewrite add_phone_cases. destruct (Phone.phone_validation v) eqn:E;
      cbn [snd name]; split; auto.
    split; cbn [phones birthday]; auto.
    apply Forall_app; split; auto.
  - rewrite remove_phone_cases. destruct (find _ _); cbn [snd name];
      split; auto.
    split; cbn [phones birthday]; auto using remove_first_Forall.
  - rewrite edit_phone_cases. destruct (find _ _); [|now cbn].
    destruct (Phone.phone_validation w) eqn:E; cbn [snd name]; split; auto.
    split; cbn [phones birthday]; auto.
    apply remove_first_Forall, Forall_app; split; auto.
  - rewrite record_add_birthday_cases.
    destruct (Strptime.strptime v) as [d|e] eqn:E; cbn [snd name];
      split; auto.
    split; cbn [phones birthday]; auto.
    intros b [= <-]. exists d. exact E.
Qed.

Lemma methods_keep_valid_witness :
  let ok (out : result unit * Record.t) :=
    valid_record (snd out) /\ name (snd out) = name sample_record in
  ok (add_phone (lit "5555555555") sample_record)
  /\ ok (remove_phone (lit "5555555555") sample_record)
  /\ ok (edit_phone (lit "5555555555") (lit "1234567890") sample_record)
  /\ ok (add_birthday (lit "5555555555") sample_record).
Proof.
  apply (methods_keep_valid sample_record).
  split; [repeat constructor|intros b H; discriminate H].
Defined.

End RecordLife.

(** ** Deleting records; the keys of the book *)
Section BookLife.
Import Py AddressBook Spec Samples Inv.

Lemma dict_get_in {V} (d : dict V) (k : pystr) (v : V) :
  dict_get d k = Some v -> In k (map fst d).
Proof.
  induction d as [|[k' v'] d IH]; cbn [dict_get map fst]; [discriminate|].
  destruct (str_eqb k' k) eqn:E.
  - apply str_eqb_eq in E. intros _. now left.
  - intros H. right. now apply IH.
Qed.

Lemma dict_get_not_in {V} (d : dict V) (k : pystr) :
  ~ In k (map fst d) -> dict_get d k = None.
Proof.
  intros H. destruct (dict_get d k) eqn:E; [|reflexivity].
  apply dict_get_in in E. contradiction.
Qed.

Lemma dict_get_none_not_in {V} (d : dict V) (k : pystr) :
  dict_get d k = None -> ~ In k (map fst d).
Proof.
  induction d as [|[k' v'] d IH]; cbn [dict_get map fst]; [tauto|].
  destruct (str_eqb k' k) eqn:E; [discriminate|].
  apply str_eqb_neq in E. intros H [H'|H']; [congruence|now apply IH].
Qed.

Lemma dict_pop_missing {V} (d : dict V) (k : pystr) :
  dict_get d k = None -> dict_pop d k = (None, d).
Proof.
  induction d as [|[k' v'] d IH]; cbn [dict_get dict_pop]; [reflexivity|].
  destruct (str_eqb k' k); [discriminate|]. intros H. now rewrite IH.
Qed.

Lemma dict_pop_keys {V} (d : dict V) (k : pystr) :
  forall x, In x (map fst (snd (dict_pop d k))) -> In x (map fst d).
Proof.
  induction d as [|[k' v'] d IH]; cbn [dict_pop map fst snd]; [tauto|].
  destruct (str_eqb k' k); cbn [snd].
  - intros x H. now right.
  - destruct (dict_pop d k) as [f rest]; cbn [snd map fst] in *.
    intros x [H|H]; [now left|right; now apply IH].
Qed.

Lemma dict_pop_stored {V} (d : dict V) (k : pystr) (v : V) :
  NoDup (map fst d) -> dict_get d k = Some v ->
  exists d',
    dict_pop d k = (Some v, d')
    /\ dict_get d' k = None
    /\ (forall k', k' <> k -> dict_get d' k' = dict_get d k')
    /\ List.length d = S (List.length d')
    /\ NoDup (map fst d')
    /\ (forall P, Forall P d -> Forall P d').
Proof.
  induction d as [|[k' v'] d IH]; cbn [dict_get dict_pop map fst];
    [discriminate|].
  intros Hnd Hg. inversion Hnd as [|? ? Hnin Hnd']; subst.
  destruct (str_eqb k' k) eqn:E.
  - injection Hg as ->. apply str_eqb_eq in E; subst k'.
    exists d. repeat split; auto.
    + now apply dict_get_not_in.
    + intros k' Hk. cbn [dict_get].
      assert (str_eqb k k' = false) as -> by (apply str_eqb_neq; congruence).
      reflexivity.
    + intros P HP. now inversion HP.
  - destruct (IH Hnd' Hg) as (d' & Hp & Hn & Ho & Hl & Hnd'' & HP).
    exists ((k', v') :: d'). rewrite Hp. repeat split.
    + cbn [dict_get]. now rewrite E.
    + intros k0 Hk. cbn [dict_get]. destruct (str_eqb k' k0); auto.
    + cbn [List.length]. lia.
    + cbn [map fst]. constructor; auto.
      intros Hin. apply Hnin.
      pose proof (dict_pop_keys d k k') as Hk. rewrite Hp in Hk. auto.
    + intros P HPd. inversion HPd; subst. constructor; auto.
Qed.

Lemma dict_setitem_keys {V} (d : dict V) (k : pystr) (v : V) :
  map fst (dict_setitem d k v)
  = match dict_get d k with
    | Some _ => map fst d
    | None => map fst d ++ [k]
    end.
Proof.
  induction d as [|[k' v'] d IH]; cbn [dict_setitem dict_get map fst app];
    [reflexivity|].
  destruct (str_eqb k' k); cbn [map fst]; [reflexivity|].
  rewrite IH. now destruct (dict_get d k).
Qed.

Lemma dict_setitem_Forall {V} (P : pystr * V -> Prop) (d : dict V)
      (k : pystr) (v : V) :
  Forall P d -> (forall k', k' = k -> P (k', v)) ->
  Forall P (dict_setitem d k v).
Proof.
  intros Hd Hv. induction Hd as [|[k' v'] d Hx Hd IH]; cbn [dict_setitem].
  - constructor; auto.
  - destruct (str_eqb k' k) eqn:E.
    + apply str_eqb_eq in E. constructor; auto.
    + constructor; auto.
Qed.

Lemma dict_setitem_same {V} (d : dict V) (k : pystr) (v : V) :
  dict_get d k = Some v -> dict_setitem d k v = d.
Proof.
  induction d as [|[k' v'] d IH]; cbn [dict_get dict_setitem]; [discriminate|].
  destruct (str_eqb k' k); [now intros [= ->]|]. intros H. now rewrite IH.
Qed.

Lemma dict_setitem_keyed {V} (d : dict V) (k : pystr) (v : V) :
  NoDup (map fst d) -> NoDup (map fst (dict_setitem d k v)).
Proof.
  intros H. rewrite dict_setitem_keys.
  destruct (dict_get d k) eqn:E; [assumption|].
  apply dict_get_none_not_in in E.
  apply NoDup_rev in H. rewrite <- (rev_involutive (map fst d ++ [k])).
  apply NoDup_rev. rewrite rev_app_distr. cbn. constructor; auto.
  now rewrite <- in_rev.
Qed.

(** Deleting a name the book does not have returns [None] and leaves the
    book as it was. *)
Theorem delete_missing (book : AddressBook.t) (n : pystr) :
  find book n = None -> delete book n = (None, book).
Proof. apply dict_pop_missing. Qed.

Lemma delete_missing_witness :
  delete [] (lit "Ann") = (None, []).
Proof. apply (delete_missing [] (lit "Ann")). reflexivity. Defined.

(** Deleting a stored name returns its record; afterwards the name is not
    found, every other name is found as before, and the keys are still
    distinct with each record under its own name. *)
Theorem delete_stored (book : AddressBook.t) (n : pystr) (r : Record.t) :
  keyed book -> find book n = Some r ->
  exists book',
    delete book n = (Some r, book')
    /\ find book' n = None
    /\ (forall m, m <> n -> find book' m = find book m)
    /\ List.length book = S (List.length book')
    /\ keyed book'.
Proof.
  intros [Hnd Hf] Hg.
  destruct (dict_pop_stored book n r Hnd Hg)
    as (book' & Hp & Hn & Ho & Hl & Hnd' & HP).
  exists book'. repeat split; auto.
Qed.

Lemma delete_stored_witness :
  exists book',
    delete (add_record [] sample_record) (lit "Ann") = (Some sample_record, book')
    /\ find book' (lit "Ann") = None
    /\ (forall m, m <> lit "Ann" ->
                  find book' m = find (add_record [] sample_record) m)
    /\ List.length (add_record [] sample_record) = S (List.length book')
    /\ keyed book'.
Proof.
  apply (delete_stored (add_record [] sample_record) (lit "Ann") sample_record).
  - split; repeat constructor. intros [].
  - reflexivity.
Defined.

(** A record added under a new name and deleted again leaves the book as
    it was. *)
Theorem add_record_then_delete (book : AddressBook.t) (r : Record.t) :
  find book (Record.name r) = None ->
  delete (add_record book r) (Record.name r) = (Some r, book).
Proof.
  unfold find, delete, add_record. generalize (Record.name r) as k.
  intros k. induction book as [|[k' v'] d IH];
    cbn [dict_get dict_setitem dict_pop].
  - intros _. now rewrite str_eqb_refl.
  - destruct (str_eqb k' k) eqn:E; [discriminate|]. intros H.
    cbn [dict_pop]. rewrite E, (IH H). reflexivity.
Qed.

Lemma add_record_then_delete_witness :
  delete (add_record [] sample_record) (Record.name sample_record)
  = (Some sample_record, []).
Proof. apply (add_record_then_delete [] sample_record). reflexivity. Defined.

(** [add_record] keeps the order of the book: a known name stays in its
    place, a new name goes to the end. *)
Theorem add_record_order (book : AddressBook.t) (r : Record.t) :
  map fst (add_record book r)
  = match find book (Record.name r) with
    | Some _ => map fst book
    | None => map fst book ++ [Record.name r]
    end.
Proof. apply dict_setitem_keys. Qed.

(** [add_record] and [delete] keep the keys of the book distinct and every
    record under its own name. *)
Theorem keyed_kept (book : AddressBook.t) (r : Record.t) (n : pystr) :
  keyed book ->
  keyed (add_record book r) /\ keyed (snd (delete book n)).
Proof.
  intros [Hnd Hf]. split.
  - split; [now apply dict_setitem_keyed|].
    apply dict_setitem_Forall; [assumption|]. now intros k' ->.
  - unfold delete. destruct (dict_get book n) as [v|] eqn:E.
    + destruct (dict_pop_stored book n v Hnd E)
        as (book' & Hp & _ & _ & _ & Hnd' & HP).
      rewrite Hp. split; auto.
    + rewrite (dict_pop_missing _ _ E). split; auto.
Qed.

Lemma keyed_kept_witness :
  keyed (add_record ann_book bob_record)
  /\ keyed (snd (delete ann_book (lit "Ann"))).
Proof.
  apply (keyed_kept ann_book bob_record (lit "Ann")).
  split; [repeat constructor; cbn; intuition discriminate|].
  repeat constructor.
Defined.

End BookLife.

(** ** Printed dates and the days of the window *)
Section Dates.
Import Py Datetime Strptime Spec Samples Inv Digits AddressBook.

Lemma in_range_list (a n : Z) (count : nat) :
  a <= n < a + Z.of_nat count -> In n (range a count).
Proof.
  intros H. unfold range. apply in_map_iff.
  exists (Z.to_nat (n - a)). split; [lia|]. apply in_seq. lia.
Qed.

Lemma pad2_checked :
  forallb (fun n => str_eqb (pad2 n) (two_digits n)) (range 0 100) = true.
Proof. vm_compute. reflexivity. Qed.

Lemma decimal_checked :
  forallb (fun n => str_eqb (decimal n) (four_digits n)) (range 1000 (Z.to_nat 9000))
  = true.
Proof. vm_compute. reflexivity. Qed.

Lemma pad2_digits (n : Z) : 0 <= n < 100 -> pad2 n = two_digits n.
Proof.
  intros H. pose proof pad2_checked as C. rewrite forallb_forall in C.
  apply str_eqb_eq, C, in_range_list. cbn. lia.
Qed.

Lemma decimal_digits (n : Z) : 1000 <= n <= 9999 -> decimal n = four_digits n.
Proof.
  intros H. pose proof decimal_checked as C. rewrite forallb_forall in C.
  apply str_eqb_eq, C, in_range_list. rewrite Z2Nat.id; lia.
Qed.

Lemma valid_real (d : date) :
  valid_date d -> real_date (year d) (month d) (day d).
Proof.
  intros H. apply valid_date_ymd in H. apply date_new_real.
  now apply date_new_valid.
Qed.

(** From year 1000 on, a date is printed as [DD.MM.YYYY] and parsing the
    print gives the date back. *)
Theorem strftime_strptime (d : date) :
  valid_date d -> 1000 <= year d ->
  DD_MM_YYYY (strftime d) (year d) (month d) (day d)
  /\ strptime (strftime d) = Ok d.
Proof.
  intros Hv Hy. pose proof (valid_real d Hv) as Hr.
  pose proof Hr as (Hyr & Hm & Hd).
  pose proof (month_length_le_31 (year d) (month d)) as H31.
  assert (Hs : DD_MM_YYYY (strftime d) (year d) (month d) (day d)).
  { unfold strftime. rewrite !pad2_digits, decimal_digits by lia.
    unfold two_digits, four_digits, ch. cbn [app N_of_ascii Z.of_N].
    exists (48 + day d / 10), (48 + day d mod 10), (48 + month d / 10),
      (48 + month d mod 10), (48 + year d / 1000),
      (48 + (year d / 100) mod 10), (48 + (year d / 10) mod 10),
      (48 + year d mod 10).
    split; [|split; [reflexivity|]].
    - repeat constructor; unfold ascii_digit; Z.div_mod_to_equations; lia.
    - repeat split; Z.div_mod_to_equations; lia. }
  split; [exact Hs|].
  destruct d as [y m dd]; cbn [year month day] in *.
  apply strptime_complete. now apply strict_reads.
Qed.

Lemma strftime_strptime_witness :
  DD_MM_YYYY (strftime (mkdate 2024 6 17)) 2024 6 17
  /\ strptime (strftime (mkdate 2024 6 17)) = Ok (mkdate 2024 6 17).
Proof.
  apply (strftime_strptime (mkdate 2024 6 17)).
  - reflexivity.
  - cbn. lia.
Defined.


(** Every entry the query reports names a record of the book that has a
    birthday, and its date is the congratulation date of that birthday: a
    weekday, not before today and at most nine days ahead. *)
Theorem reported_entries
        (book : AddressBook.t) (today : date) (result : list entry) :
  valid_date today ->
  get_upcoming_birthdays book today = Ok result ->
  Forall (fun e =>
            exists r bd occ,
              In r (dict_values book)
              /\ entry_name e = Record.name r
              /\ birthday_date r = Some bd
              /\ occurrence today bd = Some occ
              /\ entry_birthday e = strftime (congratulation occ)
              /\ valid_date (congratulation occ)
              /\ 0 <= days_between today (congratulation occ) <= 9
              /\ 0 <= weekday (congratulation occ) <= 4) result.
Proof.
  intros Ht. rewrite query_closed_form by assumption.
  destruct (forallb _ _); [|discriminate]. intros [= <-].
  apply Forall_forall. intros e He.
  apply in_flat_map in He as (r & Hr & He). exists r.
  unfold contribution in He.
  destruct (birthday_date r) as [bd|]; [|destruct He].
  destruct (occurrence today bd) as [occ|] eqn:Ho; [|destruct He].
  unfold in_window in He.
  destruct (Z.leb_spec 0 (days_between today occ)); [|destruct He].
  destruct (Z.leb_spec (days_between today occ) 7); [|destruct He].
  destruct He as [<-|[]]. exists bd, occ.
  destruct (occurrence_spec _ _ _ Ht Ho) as (Hv & _).
  destruct (congratulation_spec occ Hv) as (Hv' & Ho' & Hw).
  repeat split; auto; unfold days_between in *;
    destruct (weekday occ =? 5), (weekday occ =? 6); lia.
Qed.

Lemma reported_entries_witness :
  Forall (fun e =>
            exists r bd occ,
              In r (dict_values june_book)
              /\ entry_name e = Record.name r
              /\ birthday_date r = Some bd
              /\ occurrence (mkdate 2024 6 10) bd = Some occ
              /\ entry_birthday e = strftime (congratulation occ)
              /\ valid_date (congratulation occ)
              /\ 0 <= days_between (mkdate 2024 6 10) (congratulation occ) <= 9
              /\ 0 <= weekday (congratulation occ) <= 4)
         [mk_entry (lit "Ann") (lit "12.06.2024");
          mk_entry (lit "Bob") (lit "17.06.2024")].
Proof.
  apply (reported_entries june_book (mkdate 2024 6 10)).
  - reflexivity.
  - vm_compute. reflexivity.
Defined.

Lemma fromordinal_spec (n : Z) (d : date) :
  1 <= n -> fromordinal n = Ok d -> valid_date d /\ toordinal d = n.
Proof.
  intros Hn. pose proof (ord2ymd_spec n Hn) as Hs. unfold fromordinal.
  destruct (_ord2ymd n) as [[y m] dd]. destruct Hs as (_ & _ & _ & Ho).
  rewrite date_new_total.
  destruct (valid_dateb (mkdate y m dd)) eqn:V; [|discriminate].
  intros [= <-]. split; [exact V|exact Ho].
Qed.

Lemma add_days_spec (a d : date) (k : Z) :
  valid_date a -> 0 <= k -> add_days a k = Ok d ->
  valid_date d /\ toordinal d = toordinal a + k.
Proof.
  intros Ha Hk. pose proof (toordinal_bounds a Ha). unfold add_days.
  destruct (_ && _); [|discriminate]. apply fromordinal_spec. lia.
Qed.

Lemma add_days_back (a d : date) :
  valid_date a -> valid_date d -> toordinal a <= toordinal d ->
  add_days a (toordinal d - toordinal a) = Ok d.
Proof.
  intros Ha Hd Hle. pose proof (toordinal_bounds d Hd) as Hb.
  unfold add_days.
  replace (toordinal a + (toordinal d - toordinal a)) with (toordinal d) by lia.
  destruct (Z.ltb_spec 0 (toordinal d)); [|lia].
  destruct (Z.leb_spec (toordinal d) _MAXORDINAL); [|lia].
  now apply fromordinal_toordinal.
Qed.

(** A birthday contributes to the result exactly when its month and day
    are those of today or of one of the seven days after it. *)
Lemma contribution_window (today : date) (r : Record.t) (bd : date) :
  valid_date today -> birthday_date r = Some bd ->
  contribution today r <> []
  <-> exists k d, 0 <= k <= 7 /\ add_days today k = Ok d
                  /\ month d = month bd /\ day d = day bd.
Proof.
  intros Ht Hb. unfold contribution. rewrite Hb. split.
  - destruct (occurrence today bd) as [occ|] eqn:Ho; [|congruence].
    destruct (occurrence_spec _ _ _ Ht Ho) as (Hv & Hm & Hd & _ & Hge).
    unfold in_window.
    destruct (Z.leb_spec 0 (days_between today occ)); [|cbn; congruence].
    destruct (Z.leb_spec (days_between today occ) 7); [|cbn; congruence].
    intros _. exists (days_between today occ), occ.
    unfold days_between in *. repeat split; auto.
    apply add_days_back; auto. lia.
  - intros (k & d & Hk & Ha & Hm & Hd).
    destruct (add_days_spec today d k Ht (proj1 Hk) Ha) as [Hv Ho].
    pose proof Hv as Hv0. pose proof Ht as Ht0.
    apply valid_date_ymd in Hv as (Hdy & Hdm & Hdd).
    apply valid_date_ymd in Ht as (Hty & Htm & Htd).
    pose proof (ymd2ord_in_year _ _ _ Hdm Hdd) as Id.
    pose proof (ymd2ord_in_year _ _ _ Htm Htd) as It.
    pose proof Ho as Ho'. unfold toordinal in Ho.
    assert (Hyear : year d = year today \/ year d = year today + 1).
    { destruct (Z.lt_trichotomy (year d) (year today)) as [Hlt|[He|Hgt]];
        [|now left|].
      - pose proof (days_before_year_next _ _ Hlt). lia.
      - destruct (Z.eq_dec (year d) (year today + 1)); [now right|].
        pose proof (days_before_year_next (year today + 1) (year d) ltac:(lia)).
        pose proof (days_before_year_succ (year today)).
        destruct (_is_leap (year today)), (_is_leap (year today + 1));
          cbn [b2z] in *; lia. }
    assert (Hocc : occurrence today bd = Some d).
    { unfold occurrence. cbv zeta. rewrite !calendar_day_valid.
      rewrite <- Hm, <- Hd. unfold days_between.
      destruct Hyear as [Hy|Hy].
      - assert (mkdate (year today) (month d) (day d) = d) as E
            by (rewrite <- Hy; now destruct d).
        rewrite E, Hv0.
        destruct (Z.ltb_spec (toordinal d - toordinal today) 0);
          [lia|reflexivity].
      - pose proof (days_before_year_succ (year today)) as Hs.
        rewrite <- Hy in Hs.
        pose proof (month_tables (year d) (month d) Hdm) as T. cbv zeta in T.
        unfold toordinal, _ymd2ord in Ho', Id, It.
        assert (Hjan : month d = 1 /\ day d <= 7)
          by (destruct (_is_leap (year today)), (_is_leap (year d));
              cbn [b2z] in *; lia).
        destruct Hjan as [Hj Hd7].
        assert (V1 : valid_dateb (mkdate (year today) (month d) (day d)) = true).
        { apply valid_date_ymd. unfold valid_ymd; cbn [year month day].
          rewrite Hj. change (_days_in_month (year today) 1) with 31. lia. }
        rewrite V1.
        assert (mkdate (year today + 1) (month d) (day d) = d) as E
            by (rewrite <- Hy; now destruct d).
        rewrite E, Hv0.
        pose proof (month_tables (year today) (month d) Hdm) as T'.
        cbv zeta in T'.
        destruct (Z.ltb_spec
                    (toordinal (mkdate (year today) (month d) (day d))
                     - toordinal today) 0) as [|Hge]; [reflexivity|].
        exfalso. unfold toordinal, _ymd2ord in Hge.
        cbn [year month day] in Hge.
        destruct (_is_leap (year today)), (_is_leap (year d));
          cbn [b2z] in *; lia. }
    rewrite Hocc. unfold in_window, days_between.
    destruct (Z.leb_spec 0 (toordinal d - toordinal today)); [|lia].
    destruct (Z.leb_spec (toordinal d - toordinal today) 7); [|lia].
    cbn [andb]. discriminate.
Qed.

(** When the query returns, its result is non-empty exactly when some
    record of the book has a birthday whose month and day are those of
    today or of one of the seven days after it. *)
Theorem window_days
        (book : AddressBook.t) (today : date) (result : list entry) :
  valid_date today ->
  get_upcoming_birthdays book today = Ok result ->
  result <> []
  <-> exists r bd k d,
        In r (dict_values book) /\ birthday_date r = Some bd
        /\ 0 <= k <= 7 /\ add_days today k = Ok d
        /\ month d = month bd /\ day d = day bd.
Proof.
  intros Ht. rewrite query_closed_form by assumption.
  destruct (forallb _ _); [|discriminate]. intros [= <-]. split.
  - intros Hne.
    destruct (flat_map (contribution today) (dict_values book))
      as [|e l] eqn:E; [congruence|].
    assert (He : In e (flat_map (contribution today) (dict_values book)))
      by (rewrite E; now left).
    apply in_flat_map in He as (r & Hr & He).
    destruct (birthday_date r) as [bd|] eqn:Hb.
    + assert (Hc : contribution today r <> [])
        by (intros Hc; rewrite Hc in He; destruct He).
      apply (contribution_window today r bd Ht Hb) in Hc
        as (k & d & Hk & Ha & Hm & Hd).
      exists r, bd, k, d. tauto.
    + unfold contribution in He. rewrite Hb in He. destruct He.
  - intros (r & bd & k & d & Hr & Hb & Hk & Ha & Hm & Hd) Hnil.
    assert (Hc : contribution today r <> []).
    { apply (proj2 (contribution_window today r bd Ht Hb)).
      exists k, d. tauto. }
    destruct (contribution today r) as [|e l] eqn:E; [congruence|].
    assert (He : In e (flat_map (contribution today) (dict_values book)))
      by (apply in_flat_map; exists r; split; [assumption|rewrite E; now left]).
    rewrite Hnil in He. destruct He.
Qed.

Lemma window_days_witness :
  [mk_entry (lit "Ann") (lit "12.06.2024");
   mk_entry (lit "Bob") (lit "17.06.2024")] <> []
  <-> exists r bd k d,
        In r (dict_values june_book) /\ birthday_date r = Some bd
        /\ 0 <= k <= 7 /\ add_days (mkdate 2024 6 10) k = Ok d
        /\ month d = month bd /\ day d = day bd.
Proof.
  apply (window_days june_book (mkdate 2024 6 10)).
  - reflexivity.
  - vm_compute. reflexivity.
Defined.

End Dates.

(** ** The command handlers *)
Section Handlers.
Import Py PyStr Datetime Strptime Spec Samples Inv Commands.

Lemma call_found {A} (name : pystr) (m : Record.M A) (book : AddressBook.t)
      (r : Record.t) :
  AddressBook.find book name = Some r ->
  call name m book
  = (match fst (m r) with Ok a => Return a | Raise e => Throw (Core e) end,
     dict_setitem book name (snd (m r))).
Proof. intros H. unfold call. rewrite H. now destruct (m r). Qed.

Lemma call_missing {A} (name : pystr) (m : Record.M A) (book : AddressBook.t) :
  AddressBook.find book name = None ->
  call name m book = (Throw AttributeError, book).
Proof. intros H. unfold call. now rewrite H. Qed.

Lemma dict_setitem_new_length {V} (d : dict V) (k : pystr) (v : V) :
  dict_get d k = None -> List.length (dict_setitem d k v) = S (List.length d).
Proof.
  induction d as [|[k' v'] d IH]; cbn [dict_get dict_setitem List.length];
    [reflexivity|].
  destruct (str_eqb k' k); [discriminate|]. intros H.
  cbn [List.length]. now rewrite IH.
Qed.

Lemma find_add_record (book : AddressBook.t) (r : Record.t) :
  AddressBook.find (AddressBook.add_record book r) (Record.name r) = Some r.
Proof. apply dict_get_setitem_same. Qed.

(** [add_contact] in closed form. *)
Lemma add_contact_cases (name phone : pystr) (rest : list pystr)
      (book : AddressBook.t) :
  add_contact (name :: phone :: rest) book
  = match AddressBook.find book name with
    | Some r =>
        match phone with
        | [] => (Return (Text (lit "Contact updated.")), book)
        | _ =>
            if Phone.phone_validation phone
            then (Return (Text (lit "Contact updated.")),
                  dict_setitem book name
                    (Record.mk (Record.name r)
                       (Record.phones r ++ [Phone.mk phone])
                       (Record.birthday r)))
            else (Return (Text (lit "Insufficient data")), book)
        end
    | None =>
        if forallb isspace name
        then (Return (Text (lit "Insufficient data")), book)
        else
          let fresh := Record.mk name [] None in
          let book1 := AddressBook.add_record book fresh in
          match phone with
          | [] => (Return (Text (lit "Contact added.")), book1)
          | _ =>
              if Phone.phone_validation phone
              then (Return (Text (lit "Contact added.")),
                    dict_setitem book1 name
                      (Record.mk name [Phone.mk phone] None))
              else (Return (Text (lit "Insufficient data")), book1)
          end
    end.
Proof.
  unfold add_contact, input_error, Def.add_contact, bind, find.
  destruct (AddressBook.find book name) as [r|] eqn:Ef.
  - unfold ret at 1. destruct phone as [|c phone]; [reflexivity|].
    rewrite (call_found _ _ _ _ Ef), add_phone_cases.
    destruct (Phone.phone_validation (c :: phone)); cbn [fst snd];
      [reflexivity|].
    now rewrite (dict_setitem_same _ _ _ Ef).
  - unfold lift, add_record, ret. rewrite record_init_cases.
    destruct (forallb isspace name); [reflexivity|]. cbv zeta.
    destruct phone as [|c phone]; [reflexivity|].
    pose proof (find_add_record book (Record.mk name [] None)) as Hf.
    cbn [Record.name] in Hf.
    rewrite (call_found _ _ _ _ Hf), add_phone_cases.
    destruct (Phone.phone_validation (c :: phone)); cbn [fst snd];
      [reflexivity|].
    now rewrite (dict_setitem_same _ _ _ Hf).
Qed.


Lemma change_contact_cases (name old new : pystr) (book : AddressBook.t) :
  change_contact [name; old; new] book
  = match AddressBook.find book name with
    | None => (Return (Text (lit "Contact not found.")), book)
    | Some r =>
        match List.find (has_value old) (Record.phones r) with
        | None => (Return (Text (lit "Insufficient data")), book)
        | Some _ =>
            if Phone.phone_validation new
            then (Return (Text (lit "Phone number for '" ++ name
                                ++ lit "' updated.")),
                  dict_setitem book name
                    (Record.mk (Record.name r)
                       (remove_first old (Record.phones r ++ [Phone.mk new]))
                       (Record.birthday r)))
            else (Return (Text (lit "Insufficient data")), book)
        end
    end.
Proof.
  unfold change_contact, input_error, Def.change_contact, bind.
  destruct (AddressBook.find book name) as [r|] eqn:Ef.
  - rewrite (call_found _ _ _ _ Ef), edit_phone_cases.
    destruct (List.find (has_value old) (Record.phones r)); cbn [fst snd].
    + destruct (Phone.phone_validation new); cbn [fst snd]; [reflexivity|].
      now rewrite (dict_setitem_same _ _ _ Ef).
    + now rewrite (dict_setitem_same _ _ _ Ef).
  - now rewrite (call_missing _ _ _ Ef).
Qed.

Lemma get_phone_cases (name : pystr) (rest : list pystr)
      (book : AddressBook.t) :
  get_phone (name :: rest) book
  = match AddressBook.find book name with
    | None => (Return (Text (lit "Contact not found.")), book)
    | Some r =>
        (Return (Text (name ++ lit ": "
                       ++ join (lit "; ") (map Phone.value (Record.phones r)))),
         book)
    end.
Proof.
  unfold get_phone, input_error, Def.get_phone, bind.
  destruct (AddressBook.find book name) as [r|] eqn:Ef.
  - rewrite (call_found _ _ _ _ Ef). cbn [fst snd Record.get_phones].
    unfold ret. now rewrite (dict_setitem_same _ _ _ Ef).
  - now rewrite (call_missing _ _ _ Ef).
Qed.

Lemma add_birthday_cases (name birthday : pystr) (book : AddressBook.t) :
  add_birthday [name; birthday] book
  = match AddressBook.find book name with
    | None => (Return (Text (lit "Contact not found.")), book)
    | Some r =>
        match strptime birthday with
        | Ok _ =>
            (Return (Text (lit "Birthday added")),
             dict_setitem book name
               (Record.mk (Record.name r) (Record.phones r)
                  (Some (Birthday.mk birthday))))
        | Raise _ => (Return (Text (lit "Insufficient data")), book)
        end
    end.
Proof.
  unfold add_birthday, input_error, Def.add_birthday, bind.
  destruct (AddressBook.find book name) as [r|] eqn:Ef.
  - rewrite (call_found _ _ _ _ Ef), record_add_birthday_cases.
    destruct (strptime birthday); cbn [fst snd]; [reflexivity|].
    now rewrite (dict_setitem_same _ _ _ Ef).
  - now rewrite (call_missing _ _ _ Ef).
Qed.

Lemma show_birthday_cases (name : pystr) (rest : list pystr)
      (book : AddressBook.t) :
  show_birthday (name :: rest) book
  = (Return (Text match AddressBook.find book name with
                  | Some r =>
                      match Record.birthday r with
                      | Some b => Birthday.value b
                      | None => lit "No birthday found"
                      end
                  | None => lit "No birthday found"
                  end), book).
Proof.
  unfold show_birthday, input_error, Def.show_birthday, bind, find.
  destruct (AddressBook.find book name) as [r|]; [|reflexivity].
  now destruct (Record.birthday r).
Qed.

Lemma birthdays_cases (today : date) (args : list pystr)
      (book : AddressBook.t) :
  valid_date today ->
  birthdays today args book
  = (Return (if forallb (resolvable today) (dict_values book)
             then Birthdays (flat_map (contribution today) (dict_values book))
             else Text (lit "Insufficient data")), book).
Proof.
  intros Ht. unfold birthdays, input_error, Def.birthdays, bind, lift.
  rewrite query_closed_form by assumption.
  now destruct (forallb _ _).
Qed.

Lemma short_cases (book : AddressBook.t) (x y z w : pystr)
      (more : list pystr) :
  let insufficient := (Return (Text (lit "Insufficient data")), book) in
  let no_name := (Return (Text (lit "Enter a name of contact.")), book) in
  add_contact [] book = insufficient
  /\ add_contact [x] book = insufficient
  /\ change_contact [] book = insufficient
  /\ change_contact [x] book = insufficient
  /\ change_contact [x; y] book = insufficient
  /\ change_contact (x :: y :: z :: w :: more) book = insufficient
  /\ add_birthday [] book = insufficient
  /\ add_birthday [x] book = insufficient
  /\ add_birthday (x :: y :: z :: more) book = insufficient
  /\ get_phone [] book = no_name
  /\ show_birthday [] book = no_name.
Proof. cbv zeta. repeat split; reflexivity. Qed.


(** Whatever the arguments and the book, a handler wrapped by
    [input_error] returns a reply: no exception leaves it. *)
Theorem handlers_never_raise
        (today : date) (args : list pystr) (book : AddressBook.t) :
  valid_date today ->
  let returns (out : outcome reply * AddressBook.t) :=
    exists rep, fst out = Return rep in
  returns (add_contact args book) /\ returns (change_contact args book)
  /\ returns (get_phone args book) /\ returns (add_birthday args book)
  /\ returns (show_birthday args book) /\ returns (birthdays today args book).
Proof.
  intros Ht. cbv zeta.
  assert (R : forall (rep : reply) (b : AddressBook.t),
             exists rep', fst (Return rep, b) = Return rep')
    by (intros rep b; now exists rep).
  split; [|split; [|split; [|split; [|split]]]].
  - destruct args as [|x [|y rest]]; [apply R|apply R|].
    rewrite add_contact_cases.
    repeat match goal with
           | |- context [match ?t with _ => _ end] => destruct t
           end; apply R.
  - destruct args as [|x [|y [|z [|w more]]]]; try apply R.
    rewrite change_contact_cases.
    repeat match goal with
           | |- context [match ?t with _ => _ end] => destruct t
           end; apply R.
  - destruct args as [|x rest]; [apply R|].
    rewrite get_phone_cases. destruct (AddressBook.find book x); apply R.
  - destruct args as [|x [|y [|z more]]]; try apply R.
    rewrite add_birthday_cases.
    repeat match goal with
           | |- context [match ?t with _ => _ end] => destruct t
           end; apply R.
  - destruct args as [|x rest]; [apply R|].
    rewrite show_birthday_cases. apply R.
  - rewrite birthdays_cases by assumption. apply R.
Qed.

Lemma handlers_never_raise_witness :
  let returns (out : outcome reply * AddressBook.t) :=
    exists rep, fst out = Return rep in
  let args := [lit "Leo"; lit "not a phone"] in
  returns (add_contact args leap_book) /\ returns (change_contact args leap_book)
  /\ returns (get_phone args leap_book) /\ returns (add_birthday args leap_book)
  /\ returns (show_birthday args leap_book)
  /\ returns (birthdays (mkdate 2023 6 10) args leap_book).
Proof.
  apply (handlers_never_raise (mkdate 2023 6 10)). reflexivity.
Defined.

(** A wrong number of arguments is answered with a message and the book
    is left alone: "Insufficient data" where the arguments are unpacked,
    "Enter a name of contact." where the first one is indexed.  Arguments
    beyond the second are ignored by [add_contact] only. *)
Theorem wrong_arity (book : AddressBook.t) (x y z w : pystr)
        (more : list pystr) :
  let insufficient := (Return (Text (lit "Insufficient data")), book) in
  let no_name := (Return (Text (lit "Enter a name of contact.")), book) in
  add_contact [] book = insufficient
  /\ add_contact [x] book = insufficient
  /\ add_contact (x :: y :: z :: more) book = add_contact [x; y] book
  /\ change_contact [] book = insufficient
  /\ change_contact [x] book = insufficient
  /\ change_contact [x; y] book = insufficient
  /\ change_contact (x :: y :: z :: w :: more) book = insufficient
  /\ add_birthday [] book = insufficient
  /\ add_birthday [x] book = insufficient
  /\ add_birthday (x :: y :: z :: more) book = insufficient
  /\ get_phone [] book = no_name
  /\ show_birthday [] book = no_name.
Proof.
  cbv zeta.
  destruct (short_cases book x y z w more)
    as (H1 & H2 & H3 & H4 & H5 & H6 & H7 & H8 & H9 & H10 & H11).
  repeat split; auto.
Qed.

Lemma valid_phone_nonempty (phone : pystr) :
  Phone.phone_validation phone = true -> phone <> [].
Proof. intros H ->. discriminate H. Qed.

(** [add_contact] with a valid phone: a known contact gets the phone
    appended and the reply "Contact updated."; an unknown name that is
    not blank becomes a contact with just that phone and the reply is
    "Contact added.".  No other contact changes. *)
Theorem add_contact_stores (name phone : pystr) (rest : list pystr)
        (book : AddressBook.t) :
  Phone.phone_validation phone = true ->
  (AddressBook.find book name = None -> forallb isspace name = false) ->
  exists book',
    add_contact (name :: phone :: rest) book
    = (Return (Text match AddressBook.find book name with
                    | Some _ => lit "Contact updated."
                    | None => lit "Contact added."
                    end), book')
    /\ AddressBook.find book' name
       = Some match AddressBook.find book name with
              | Some r =>
                  Record.mk (Record.name r)
                    (Record.phones r ++ [Phone.mk phone]) (Record.birthday r)
              | None => Record.mk name [Phone.mk phone] None
              end
    /\ (forall m, m <> name ->
                  AddressBook.find book' m = AddressBook.find book m).
Proof.
  intros Hv Hb. pose proof (valid_phone_nonempty _ Hv) as Hne.
  rewrite add_contact_cases.
  destruct (AddressBook.find book name) as [r|] eqn:Ef.
  - destruct phone as [|c phone]; [congruence|]. rewrite Hv.
    eexists; split; [reflexivity|]. unfold AddressBook.find. split.
    + apply dict_get_setitem_same.
    + intros m Hm. now apply dict_get_setitem_other.
  - rewrite (Hb eq_refl). cbv zeta.
    destruct phone as [|c phone]; [congruence|]. rewrite Hv.
    eexists; split; [reflexivity|].
    unfold AddressBook.find, AddressBook.add_record. cbn [Record.name]. split.
    + apply dict_get_setitem_same.
    + intros m Hm. now rewrite !dict_get_setitem_other.
Qed.

Lemma add_contact_stores_witness :
  exists book',
    add_contact [lit "Bob"; lit "5555555555"] ann_book
    = (Return (Text match AddressBook.find ann_book (lit "Bob") with
                    | Some _ => lit "Contact updated."
                    | None => lit "Contact added."
                    end), book')
    /\ AddressBook.find book' (lit "Bob")
       = Some match AddressBook.find ann_book (lit "Bob") with
              | Some r =>
                  Record.mk (Record.name r)
                    (Record.phones r ++ [Phone.mk (lit "5555555555")])
                    (Record.birthday r)
              | None => Record.mk (lit "Bob") [Phone.mk (lit "5555555555")] None
              end
    /\ (forall m, m <> lit "Bob" ->
                  AddressBook.find book' m = AddressBook.find ann_book m).
Proof.
  apply (add_contact_stores (lit "Bob") (lit "5555555555") [] ann_book).
  - reflexivity.
  - intros _. reflexivity.
Defined.

(** [add_contact] with a phone that is not valid answers "Insufficient
    data".  A known contact is left as it was; but for a new name the
    contact has been created before the phone is refused, and stays in
    the book without phones. *)
Theorem add_contact_bad_phone (name phone : pystr) (rest : list pystr)
        (book : AddressBook.t) :
  phone <> [] -> Phone.phone_validation phone = false ->
  exists book',
    add_contact (name :: phone :: rest) book
    = (Return (Text (lit "Insufficient data")), book')
    /\ (AddressBook.find book name <> None -> book' = book)
    /\ (AddressBook.find book name = None -> forallb isspace name = false ->
        AddressBook.find book' name = Some (Record.mk name [] None)
        /\ List.length book' = S (List.length book)).
Proof.
  intros Hne Hv. rewrite add_contact_cases.
  destruct (AddressBook.find book name) as [r|] eqn:Ef.
  - destruct phone as [|c phone]; [congruence|]. rewrite Hv.
    eexists; split; [reflexivity|]. split; [reflexivity|discriminate].
  - destruct (forallb isspace name) eqn:Eb.
    + eexists; split; [reflexivity|]. split; [congruence|discriminate].
    + cbv zeta. destruct phone as [|c phone]; [congruence|]. rewrite Hv.
      eexists; split; [reflexivity|]. split; [congruence|]. intros _ _.
      split; [apply (find_add_record book (Record.mk name [] None))|].
      now apply dict_setitem_new_length.
Qed.

Lemma add_contact_bad_phone_witness :
  exists book',
    add_contact [lit "Bob"; lit "12345"] ann_book
    = (Return (Text (lit "Insufficient data")), book')
    /\ (AddressBook.find ann_book (lit "Bob") <> None -> book' = ann_book)
    /\ (AddressBook.find ann_book (lit "Bob") = None ->
        forallb isspace (lit "Bob") = false ->
        AddressBook.find book' (lit "Bob") = Some (Record.mk (lit "Bob") [] None)
        /\ List.length book' = S (List.length ann_book)).
Proof.
  apply (add_contact_bad_phone (lit "Bob") (lit "12345") [] ann_book).
  - discriminate.
  - reflexivity.
Defined.

(** After [add_contact] of a new name with a valid phone, [get_phone]
    for that name shows the name and the phone. *)
Theorem add_contact_then_get_phone (name phone : pystr)
        (book : AddressBook.t) :
  AddressBook.find book name = None -> forallb isspace name = false ->
  Phone.phone_validation phone = true ->
  fst (get_phone [name] (snd (add_contact [name; phone] book)))
  = Return (Text (name ++ lit ": " ++ phone)).
Proof.
  intros Hf Hb Hv. pose proof (valid_phone_nonempty _ Hv) as Hne.
  rewrite add_contact_cases, Hf, Hb. cbv zeta.
  destruct phone as [|c phone]; [congruence|]. rewrite Hv. cbn [snd].
  rewrite get_phone_cases. unfold AddressBook.find.
  now rewrite dict_get_setitem_same.
Qed.

Lemma add_contact_then_get_phone_witness :
  fst (get_phone [lit "Bob"]
         (snd (add_contact [lit "Bob"; lit "5555555555"] ann_book)))
  = Return (Text (lit "Bob" ++ lit ": " ++ lit "5555555555")).
Proof.
  apply (add_contact_then_get_phone (lit "Bob") (lit "5555555555") ann_book);
    reflexivity.
Defined.

(** [change_contact] refuses without touching the book: "Contact not
    found." for an unknown name, "Insufficient data" when the contact
    does not have the old phone or the new one is not valid. *)
Theorem change_contact_refused (name old new : pystr) (book : AddressBook.t) :
  (AddressBook.find book name = None ->
   change_contact [name; old; new] book
   = (Return (Text (lit "Contact not found.")), book))
  /\ (forall r, AddressBook.find book name = Some r ->
        (forall p, In p (Record.phones r) -> Phone.value p <> old)
        \/ Phone.phone_validation new = false ->
        change_contact [name; old; new] book
        = (Return (Text (lit "Insufficient data")), book)).
Proof.
  rewrite change_contact_cases. split.
  - now intros ->.
  - intros r -> [Habs|Hinv].
    + now rewrite (find_absent _ _ Habs).
    + rewrite Hinv. now destruct (List.find _ _).
Qed.

Lemma change_contact_refused_witness :
  change_contact [lit "Bob"; lit "1234567890"; lit "5555555555"] ann_book
  = (Return (Text (lit "Contact not found.")), ann_book)
  /\ change_contact [lit "Ann"; lit "1234567890"; lit "12345"] ann_book
     = (Return (Text (lit "Insufficient data")), ann_book).
Proof.
  split.
  - apply (proj1 (change_contact_refused (lit "Bob") (lit "1234567890")
                    (lit "5555555555") ann_book)). reflexivity.
  - apply (proj2 (change_contact_refused (lit "Ann") (lit "1234567890")
                    (lit "12345") ann_book) sample_record).
    + reflexivity.
    + right. reflexivity.
Defined.

(** [change_contact] on a contact that has the old phone, with a valid
    new one: the contact's phones are edited as by [edit_phone], no other
    contact changes, and the reply names the contact. *)
Theorem change_contact_updates (name old new : pystr) (book : AddressBook.t)
        (r : Record.t) :
  AddressBook.find book name = Some r ->
  (exists p, In p (Record.phones r) /\ Phone.value p = old) ->
  Phone.phone_validation new = true ->
  exists book' r',
    change_contact [name; old; new] book
    = (Return (Text (lit "Phone number for '" ++ name ++ lit "' updated.")),
       book')
    /\ Record.edit_phone old new r = (Ok tt, r')
    /\ AddressBook.find book' name = Some r'
    /\ (forall m, m <> name ->
                  AddressBook.find book' m = AddressBook.find book m)
    /\ map fst book' = map fst book.
Proof.
  intros Hf Hin Hv. rewrite change_contact_cases, Hf, edit_phone_cases.
  destruct (find_present _ _ Hin) as (q & -> & _). rewrite Hv.
  eexists _, _. split; [reflexivity|]. split; [reflexivity|].
  unfold AddressBook.find in *. split; [apply dict_get_setitem_same|].
  split; [intros m Hm; now apply dict_get_setitem_other|].
  now rewrite dict_setitem_keys, Hf.
Qed.

Lemma change_contact_updates_witness :
  exists book' r',
    change_contact [lit "Ann"; lit "1234567890"; lit "5555555555"] ann_book
    = (Return (Text (lit "Phone number for '" ++ lit "Ann"
                     ++ lit "' updated.")), book')
    /\ Record.edit_phone (lit "1234567890") (lit "5555555555") sample_record
       = (Ok tt, r')
    /\ AddressBook.find book' (lit "Ann") = Some r'
    /\ (forall m, m <> lit "Ann" ->
                  AddressBook.find book' m = AddressBook.find ann_book m)
    /\ map fst book' = map fst ann_book.
Proof.
  apply (change_contact_updates (lit "Ann") (lit "1234567890")
           (lit "5555555555") ann_book sample_record).
  - reflexivity.
  - exists (Phone.mk (lit "1234567890")). split; [now left|reflexivity].
  - reflexivity.
Defined.

(** A birthday added to a known contact is shown back exactly as it was
    typed, not in a normalised form. *)
Theorem birthday_shown_as_typed (name birthday : pystr)
        (book : AddressBook.t) (r : Record.t) (d : date) :
  AddressBook.find book name = Some r -> strptime birthday = Ok d ->
  exists book',
    add_birthday [name; birthday] book
    = (Return (Text (lit "Birthday added")), book')
    /\ show_birthday [name] book' = (Return (Text birthday), book').
Proof.
  intros Hf Hd. rewrite add_birthday_cases, Hf, Hd.
  eexists. split; [reflexivity|].
  rewrite show_birthday_cases. unfold AddressBook.find.
  now rewrite dict_get_setitem_same.
Qed.

Lemma birthday_shown_as_typed_witness :
  exists book',
    add_birthday [lit "Ann"; lit "1.6.1990"] ann_book
    = (Return (Text (lit "Birthday added")), book')
    /\ show_birthday [lit "Ann"] book'
       = (Return (Text (lit "1.6.1990")), book').
Proof.
  apply (birthday_shown_as_typed (lit "Ann") (lit "1.6.1990") ann_book
           sample_record (mkdate 1990 6 1)); reflexivity.
Defined.

(** The birthday handlers on what is not there: for an unknown name
    [add_birthday] answers "Contact not found." but [show_birthday]
    answers "No birthday found", as it does for a contact without a
    birthday; a date that does not parse is answered "Insufficient data".
    The book is unchanged in each case. *)
Theorem birthday_handlers_refuse (name birthday : pystr)
        (rest : list pystr) (book : AddressBook.t) :
  (AddressBook.find book name = None ->
   add_birthday [name; birthday] book
   = (Return (Text (lit "Contact not found.")), book)
   /\ show_birthday (name :: rest) book
      = (Return (Text (lit "No birthday found")), book))
  /\ (forall r, AddressBook.find book name = Some r ->
        (Record.birthday r = None ->
         show_birthday (name :: rest) book
         = (Return (Text (lit "No birthday found")), book))
        /\ ((forall d, strptime birthday <> Ok d) ->
            add_birthday [name; birthday] book
            = (Return (Text (lit "Insufficient data")), book))).
Proof.
  rewrite add_birthday_cases, show_birthday_cases. split.
  - now intros ->.
  - intros r ->. split.
    + now intros ->.
    + intros Hn. destruct (strptime birthday) as [d|]; [|reflexivity].
      now destruct (Hn d).
Qed.

Lemma birthday_handlers_refuse_witness :
  (add_birthday [lit "Bob"; lit "12.06.1990"] ann_book
   = (Return (Text (lit "Contact not found.")), ann_book)
   /\ show_birthday [lit "Bob"] ann_book
      = (Return (Text (lit "No birthday found")), ann_book))
  /\ show_birthday [lit "Ann"] ann_book
     = (Return (Text (lit "No birthday found")), ann_book)
  /\ add_birthday [lit "Ann"; lit "31.04.2024"] ann_book
     = (Return (Text (lit "Insufficient data")), ann_book).
Proof.
  split; [|split].
  - apply (proj1 (birthday_handlers_refuse (lit "Bob") (lit "12.06.1990") []
                    ann_book)). reflexivity.
  - apply (proj2 (birthday_handlers_refuse (lit "Ann") (lit "12.06.1990") []
                    ann_book) sample_record); reflexivity.
  - apply (proj2 (birthday_handlers_refuse (lit "Ann") (lit "31.04.2024") []
                    ann_book) sample_record); [reflexivity|].
    intros d H. vm_compute in H. discriminate H.
Defined.

(** The [birthdays] handler returns the list of the query, or
    "Insufficient data" when some birthday of the book has no next
    occurrence, as a 29 February birthday in a year that is not a leap
    year; it never changes the book. *)
Theorem birthdays_reply (today : date) (args : list pystr)
        (book : AddressBook.t) :
  valid_date today ->
  birthdays today args book
  = (Return (if forallb (resolvable today) (dict_values book)
             then Birthdays (flat_map (contribution today) (dict_values book))
             else Text (lit "Insufficient data")), book).
Proof. apply birthdays_cases. Qed.

Lemma birthdays_reply_witness :
  birthdays (mkdate 2023 6 10) [] leap_book
  = (Return (Text (lit "Insufficient data")), leap_book).
Proof.
  apply (birthdays_reply (mkdate 2023 6 10) [] leap_book). reflexivity.
Defined.


Lemma dict_get_In {V} (d : dict V) (k : pystr) (v : V) :
  dict_get d k = Some v -> exists k', k' = k /\ In (k', v) d.
Proof.
  induction d as [|[k' v'] d IH]; cbn [dict_get]; [discriminate|].
  destruct (str_eqb k' k) eqn:E.
  - intros [= ->]. apply str_eqb_eq in E. exists k'. split; [auto|now left].
  - intros H. destruct (IH H) as (k0 & Hk & Hin). exists k0.
    split; [auto|now right].
Qed.

Lemma sound_find (book : AddressBook.t) (name : pystr) (r : Record.t) :
  sound book -> AddressBook.find book name = Some r ->
  Record.name r = name /\ valid_record r.
Proof.
  intros [[_ Hk] Hv] Hf. apply dict_get_In in Hf as (k & <- & Hin).
  rewrite Forall_forall in Hk, Hv. split.
  - apply (Hk _ Hin).
  - apply (Hv _ Hin).
Qed.

Lemma sound_setitem (book : AddressBook.t) (name : pystr) (r : Record.t) :
  sound book -> Record.name r = name -> valid_record r ->
  sound (dict_setitem book name r).
Proof.
  intros [[Hnd Hk] Hv] Hn Hr. split; [split|].
  - now apply dict_setitem_keyed.
  - apply dict_setitem_Forall; [assumption|]. now intros k' ->.
  - apply dict_setitem_Forall; [assumption|]. now intros k' _.
Qed.

Lemma valid_record_fresh (name : pystr) : valid_record (Record.mk name [] None).
Proof. split; [constructor|discriminate]. Qed.

(** The handlers keep the book sound: keys distinct, every record under
    its own name, only validated phones and birthdays that parse.  The
    three that read leave the book as it is. *)
Theorem handlers_keep_sound
        (today : date) (args : list pystr) (book : AddressBook.t) :
  sound book ->
  sound (snd (add_contact args book))
  /\ sound (snd (change_contact args book))
  /\ sound (snd (add_birthday args book))
  /\ snd (get_phone args book) = book
  /\ snd (show_birthday args book) = book
  /\ snd (birthdays today args book) = book.
Proof.
  intros Hs. split; [|split; [|split; [|split; [|split]]]].
  - destruct args as [|name [|phone rest]]; [exact Hs|exact Hs|].
    rewrite add_contact_cases.
    destruct (AddressBook.find book name) as [r|] eqn:Ef.
    + destruct (sound_find _ _ _ Hs Ef) as [Hn [Hp Hb]].
      destruct phone as [|c phone]; [exact Hs|].
      destruct (Phone.phone_validation (c :: phone)) eqn:Ev; [|exact Hs].
      cbn [snd]. apply sound_setitem; auto. split; cbn; auto.
      apply Forall_app. split; auto.
    + destruct (forallb isspace name); [exact Hs|]. cbv zeta.
      assert (H1 : sound (AddressBook.add_record book
                            (Record.mk name [] None)))
        by (apply sound_setitem; auto using valid_record_fresh).
      destruct phone as [|c phone]; [exact H1|].
      destruct (Phone.phone_validation (c :: phone)) eqn:Ev; [|exact H1].
      cbn [snd]. apply sound_setitem; auto. split; cbn; [|discriminate].
      repeat constructor. exact Ev.
  - destruct args as [|name [|old [|new [|w more]]]]; try exact Hs.
    rewrite change_contact_cases.
    destruct (AddressBook.find book name) as [r|] eqn:Ef; [|exact Hs].
    destruct (sound_find _ _ _ Hs Ef) as [Hn [Hp Hb]].
    destruct (List.find _ _); [|exact Hs].
    destruct (Phone.phone_validation new) eqn:Ev; [|exact Hs].
    cbn [snd]. apply sound_setitem; auto. split; cbn; auto.
    apply remove_first_Forall, Forall_app. split; auto.
  - destruct args as [|name [|birthday [|w more]]]; try exact Hs.
    rewrite add_birthday_cases.
    destruct (AddressBook.find book name) as [r|] eqn:Ef; [|exact Hs].
    destruct (sound_find _ _ _ Hs Ef) as [Hn [Hp Hb]].
    destruct (strptime birthday) as [d|] eqn:Ed; [|exact Hs].
    cbn [snd]. apply sound_setitem; auto. split; cbn; auto.
    intros b [= <-]. now exists d.
  - destruct args as [|name rest]; [reflexivity|].
    rewrite get_phone_cases. now destruct (AddressBook.find book name).
  - destruct args as [|name rest]; [reflexivity|].
    now rewrite show_birthday_cases.
  - unfold birthdays, input_error, Def.birthdays, bind, lift.
    destruct (AddressBook.get_upcoming_birthdays book today) as [l|e];
      [reflexivity|]. now destruct e.
Qed.

Lemma handlers_keep_sound_witness :
  let args := [lit "Bob"; lit "5555555555"] in
  sound (snd (add_contact args ann_book))
  /\ sound (snd (change_contact args ann_book))
  /\ sound (snd (add_birthday args ann_book))
  /\ snd (get_phone args ann_book) = ann_book
  /\ snd (show_birthday args ann_book) = ann_book
  /\ snd (birthdays (mkdate 2024 6 10) args ann_book) = ann_book.
Proof.
  apply (handlers_keep_sound (mkdate 2024 6 10)).
  split; [split|]; repeat constructor.
  - intros [].
  - intros b H. discriminate H.
Defined.

End Handlers.

(** ** Reading a command line *)
Section CommandLine.
Import Py PyStr Commands.

Lemma split_from_words (word s : pystr) :
  Forall (fun c => isspace c = false) word ->
  Forall (fun w => w <> [] /\ Forall (fun c => isspace c = false) w)
         (split_from word s).
Proof.
  revert word. induction s as [|c s IH]; intros word Hw; cbn [split_from].
  - destruct word as [|x word]; constructor; [|constructor]. split.
    + intros H. apply (f_equal (@List.length _)) in H.
      rewrite length_rev in H. discriminate.
    + now apply Forall_rev.
  - destruct (isspace c) eqn:E.
    + destruct word as [|x word]; [now apply IH|]. constructor.
      * split; [|now apply Forall_rev].
        intros H. apply (f_equal (@List.length _)) in H.
        rewrite length_rev in H. discriminate.
      * now apply IH.
    + apply IH. now constructor.
Qed.

Lemma split_from_concat (word s : pystr) :
  List.concat (split_from word s)
  = rev word ++ filter (fun c => negb (isspace c)) s.
Proof.
  revert word. induction s as [|c s IH]; intros word;
    cbn [split_from filter].
  - destruct word; cbn [List.concat]; now rewrite ?app_nil_r.
  - destruct (isspace c); cbn [negb].
    + destruct word as [|x word]; cbn [List.concat]; now rewrite IH.
    + rewrite IH. cbn [rev]. now rewrite <- app_assoc.
Qed.

Lemma split_nil_iff (s : pystr) : split s = [] <-> forallb isspace s = true.
Proof.
  unfold split. split.
  - intros H. pose proof (split_from_concat [] s) as Hc.
    rewrite H in Hc. cbn [List.concat rev app] in Hc. apply forallb_forall. intros c Hin.
    destruct (isspace c) eqn:E; [reflexivity|].
    assert (In c (filter (fun c => negb (isspace c)) s))
      by (apply filter_In; split; [assumption|now rewrite E]).
    rewrite <- Hc in H0. destruct H0.
  - intros H. induction s as [|c s IH]; [reflexivity|].
    cbn [forallb] in H. apply andb_true_iff in H as [Hc Hs].
    cbn [split_from]. rewrite Hc. now apply IH.
Qed.

Lemma strip_word (w : pystr) :
  w <> [] -> Forall (fun c => isspace c = false) w -> strip w = w.
Proof.
  intros Hne Hw. unfold strip. destruct w as [|c w]; [congruence|].
  cbn [lstrip]. inversion Hw as [|? ? Hc Hw']; subst. rewrite Hc.
  destruct (rev (c :: w)) as [|x t] eqn:E.
  - apply (f_equal (@List.length _)) in E. rewrite length_rev in E.
    discriminate.
  - assert (Hx : isspace x = false).
    { rewrite Forall_forall in Hw. apply Hw.
      apply (proj2 (in_rev (c :: w) x)). rewrite E. now left. }
    cbn [lstrip]. rewrite Hx. now rewrite <- E, rev_involutive.
Qed.

(** [parse_input] never raises.  A blank line gives no command; any other
    line gives its first word, lowered, as command and the remaining words
    as arguments.  The words have no whitespace in them ([cmd.strip()]
    changes nothing), none is empty, and together they are the line with
    its whitespace taken out. *)
Theorem parse_input_words (lower : pystr -> pystr) (s : pystr) :
  parse_input lower s
  = match split s with
    | [] => Ok (None, [])
    | cmd :: args => Ok (Some (lower cmd), args)
    end
  /\ (split s = [] <-> forallb isspace s = true)
  /\ Forall (fun w => w <> [] /\ Forall (fun c => isspace c = false) w)
            (split s)
  /\ List.concat (split s) = filter (fun c => negb (isspace c)) s.
Proof.
  pose proof (split_from_words [] s (Forall_nil _)) as Hw.
  fold (split s) in Hw.
  split; [|split; [apply split_nil_iff|split; [exact Hw|]]].
  - unfold parse_input. destruct (strip s) as [|x t] eqn:Es.
    + apply strip_nil_iff, split_nil_iff in Es. now rewrite Es.
    + destruct (split s) as [|cmd args] eqn:E.
      * apply split_nil_iff, strip_nil_iff in E. congruence.
      * inversion Hw as [|? ? [Hne Hc] _]; subst.
        now rewrite (strip_word cmd Hne Hc).
  - apply (split_from_concat [] s).
Qed.

Lemma join_cons (sep x : pystr) (l : list pystr) :
  exists rest, join sep (x :: l) = x ++ rest.
Proof.
  destruct l as [|y l]; cbn [join]; [exists []; now rewrite app_nil_r|].
  now exists (sep ++ join sep (y :: l)).
Qed.

(** [show_all] answers "No contacts saved." exactly when the book is
    empty; otherwise its answer starts with the first record's
    "Contact name: ". *)
Theorem show_all_empty (book : AddressBook.t) :
  (Def.show_all book = lit "No contacts saved." <-> book = [])
  /\ (book = []
      \/ exists rest, Def.show_all book = lit "Contact name: " ++ rest).
Proof.
  destruct book as [|[k r] book]; [split; [split; reflexivity|now left]|].
  assert (H : exists rest,
             Def.show_all ((k, r) :: book) = lit "Contact name: " ++ rest).
  { unfold Def.show_all, AddressBook.to_str, dict_values.
    cbn [map snd].
    destruct (join_cons (lit (String "010"%char EmptyString))
                (Record.to_str r) (map Record.to_str (map snd book)))
      as [rest ->].
    unfold Record.to_str. rewrite <- !app_assoc. eauto. }
  split; [|now right]. split; [|discriminate].
  destruct H as [rest ->]. discriminate.
Qed.

End CommandLine.
